(** * MultiomicsML: the identifier-mapping and sample-alignment cells of
    [Methods_2_StandardWorfklow.ipynb]

    The notebook is a sequence of cells over pandas data frames.  The
    cells modelled here are

    - cell 8  (lines 87-90): clean-up of [conversion_table['ChEBI']]
      with [pd.to_numeric(errors='coerce')], [dropna] and
      [astype('Int64')];
    - cell 10 (line 106): [sspa.map_identifiers];
    - cell 35 (lines 407-409): [prot.index.intersection(metab.index)]
      followed by [.loc[common_indices]] on both frames;
    - cell 40 (lines 454-459): [pathintegrate.PathIntegrate(..., min_coverage=4)].

    Data frames are lists of labelled rows (order and duplicates matter),
    Python exceptions are an explicit result type, pathway tables are
    finite maps. *)

From Stdlib Require Import ZArith Ascii String.
From stdpp Require Import base decidable option list strings gmap sets fin_maps.
From stdpp Require Import sorting.

Local Open Scope Z_scope.

(** ** Exceptions *)

Inductive Exception : Set :=
| KeyError
| TypeError
| ValueError
| OverflowError.

Inductive Result (A : Type) : Type :=
| Ok (a : A)
| Raised (e : Exception).

Arguments Ok {A} a.
Arguments Raised {A} e.

#[global] Instance Result_ret : MRet Result := fun _ a => Ok a.
#[global] Instance Result_bind : MBind Result := fun _ _ f m =>
  match m with
  | Ok a => f a
  | Raised e => Raised e
  end.

Definition completes {A} (r : Result A) : Prop :=
  match r with Ok _ => True | Raised _ => False end.

(** Run [f] on every element, left to right; the first exception aborts. *)
Fixpoint traverse {A B} (f : A -> Result B) (l : list A) : Result (list B) :=
  match l with
  | [] => Ok []
  | x :: l' => y ← f x; ys ← traverse f l'; Ok (y :: ys)
  end.

(** ** Data frames *)

Module DataFrame.

(** A frame has column labels and rows; a row is its index label and one
    cell per column.  [L] is the type of index labels, [C] of column
    labels, [V] of cells. *)
Record t (L C V : Type) : Type := mk {
  columns : list C;
  rows : list (L * list V)
}.
Arguments mk {L C V} columns rows.
Arguments columns {L C V} _.
Arguments rows {L C V} _.

Definition index {L C V} (df : t L C V) : list L := (rows df).*1.

Section Loc.
Context {L C V : Type} `{EqDecision L}.

(** The rows carrying label [l], in frame order. *)
Definition rows_at (df : t L C V) (l : L) : list (L * list V) :=
  filter (fun r => r.1 = l) (rows df).

(** One label of a list-like [.loc] key: [KeyError] when the label is not
    in the index. *)
Definition loc1 (df : t L C V) (l : L) : Result (list (L * list V)) :=
  match rows_at df l with
  | [] => Raised KeyError
  | rs => Ok rs
  end.

(** [df.loc[key]] for a list-like key: for every label of the key, in key
    order, the rows carrying it. *)
Definition loc (df : t L C V) (key : list L) : Result (t L C V) :=
  sel ← traverse (loc1 df) key;
  Ok (mk (columns df) (concat sel)).

End Loc.

End DataFrame.

(** ** pandas [Index] operations *)

Section Index.
Context {L : Type} `{EqDecision L}.

(** [Index.unique()]: first occurrences, in order. *)
Fixpoint unique_from (seen : list L) (l : list L) : list L :=
  match l with
  | [] => []
  | x :: l' =>
      if decide (x ∈ seen) then unique_from seen l'
      else x :: unique_from (x :: seen) l'
  end.

Definition Index_unique (l : list L) : list L := unique_from [] l.

(** [self.intersection(other)] with the default [sort=False]: the distinct
    labels of [self] that occur in [other], in the order of [self]. *)
Definition Index_intersection (self other : list L) : list L :=
  filter (fun l => l ∈ other) (Index_unique self).

End Index.

(** ** Cell 35: multi-omics sample alignment *)

Section Cell35.
Context {L C V : Type} `{EqDecision L}.

Definition cell35_align (prot metab : DataFrame.t L C V)
  : Result (DataFrame.t L C V * DataFrame.t L C V) :=
  let common_indices :=
    Index_intersection (DataFrame.index prot) (DataFrame.index metab) in
  prot' ← DataFrame.loc prot common_indices;
  metab' ← DataFrame.loc metab common_indices;
  Ok (prot', metab').

End Cell35.

(** ** Cell 8: clean-up of the conversion table *)

(** What a cell of a numeric column holds, as far as the integer cast of
    line 90 can tell: a missing value, a [float64] that is a whole number,
    a finite [float64] that is not whole, an infinity, or an integer (a
    cell of an integer column, an integer object, or the reading of an
    integer literal), which is exact. *)
Inductive Numeric : Set :=
| NaN
| Whole (z : Z)
| NotWhole
| Infinite
| Integer (z : Z).

#[global] Instance Numeric_eq_dec : EqDecision Numeric.
Proof. solve_decision. Defined.

(** A cell of the raw ['ChEBI'] column: missing, already a number (an
    integer or a float), or the text returned by the name-resolution
    service. *)
Inductive RawId : Set :=
| RawNull
| RawNumber (v : Numeric)
| RawText (s : string).

(** A row of [conversion_table]; [I] is the type of the ['ChEBI'] cell. *)
Record ConversionRecord (I : Type) : Type := mkRecord {
  Query : string;
  ChEBI : I;
  Comment : string
}.
Arguments mkRecord {I} Query ChEBI Comment.
Arguments Query {I} _.
Arguments ChEBI {I} _.
Arguments Comment {I} _.

Definition set_ChEBI {I J} (r : ConversionRecord I) (v : J) : ConversionRecord J :=
  mkRecord (Query r) v (Comment r).

(** [table['ChEBI'] = f(table['ChEBI'])] for a cell-wise [f] that may raise. *)
Definition assign_ChEBI {I J} (f : I -> Result J) (table : list (ConversionRecord I))
  : Result (list (ConversionRecord J)) :=
  traverse (fun r => v ← f (ChEBI r); Ok (set_ChEBI r v)) table.

(** The [errors=] argument of [pd.to_numeric]. *)
Inductive Errors : Set :=
| errors_raise
| errors_coerce.

Definition int64_min : Z := - 2 ^ 63.
Definition int64_max : Z := 2 ^ 63 - 1.
Definition uint64_max : Z := 2 ^ 64 - 1.

(** [table.dropna(subset=['ChEBI'])] *)
Definition dropna (table : list (ConversionRecord Numeric))
  : list (ConversionRecord Numeric) :=
  filter (fun r => ChEBI r ≠ NaN) table.

(** [.astype('Int64')] on one cell: the nullable integer, [TypeError] when
    the cast is not value preserving, [OverflowError] on an infinity. *)
Definition astype_Int64 (v : Numeric) : Result (option Z) :=
  match v with
  | NaN => Ok None
  | Whole z =>
      if bool_decide (int64_min ≤ z ≤ int64_max) then Ok (Some z)
      else Raised TypeError
  | NotWhole => Raised TypeError
  | Infinite => Raised OverflowError
  | Integer z =>
      if bool_decide (int64_min ≤ z ≤ int64_max) then Ok (Some z)
      else Raised TypeError
  end.

(** The [float64] nearest to a whole number, ties to the even mantissa of
    53 bits; an infinity from [2 ^ 1024] on. *)
Definition float64_of_Z (z : Z) : Numeric :=
  let a := Z.abs z in
  if a <? 2 ^ 53 then Whole z
  else
    let e := Z.log2 a - 52 in
    let q := a / 2 ^ e in
    let r := a mod 2 ^ e in
    let half := 2 ^ (e - 1) in
    let q' := if (half <? r) || ((r =? half) && Z.odd q) then q + 1 else q in
    let m := q' * 2 ^ e in
    if 2 ^ 1024 <=? m then Infinite else Whole (Z.sgn z * m).

(** A number object as a [float64] column stores it. *)
Definition as_float64 (v : Numeric) : Numeric :=
  match v with
  | Integer z => float64_of_Z z
  | _ => v
  end.

Definition is_int64 (v : Numeric) : bool :=
  match v with
  | Integer z => bool_decide (int64_min ≤ z ≤ int64_max)
  | _ => false
  end.

Definition is_uint64 (v : Numeric) : bool :=
  match v with
  | Integer z => bool_decide (0 ≤ z ≤ uint64_max)
  | _ => false
  end.

(** The type [pd.to_numeric] gives an object column.  It is an integer
    column, with every value exact, when every cell reads as an integer
    and all of them fit [int64] or all of them fit [uint64]; it is
    [float64] otherwise, so one null, malformed or fractional cell, or a
    float literal, makes every cell of the column a [float64]. *)
Definition exact_column (values : list Numeric) : bool :=
  forallb is_int64 values || forallb is_uint64 values.

(** The whole number a cell holds, if any. *)
Definition whole_value (v : Numeric) : option Z :=
  match v with
  | Whole z | Integer z => Some z
  | _ => None
  end.

(** The values the cast of line 90 accepts. *)
Definition castable (v : Numeric) : Prop :=
  match v with
  | NaN => True
  | Whole z | Integer z => int64_min ≤ z ≤ int64_max
  | NotWhole => False
  | Infinite => False
  end.

(** What cell 8 leaves untouched in a record. *)
Definition kept_fields {I J} (r : ConversionRecord I) (r' : ConversionRecord J) : Prop :=
  Query r' = Query r /\ Comment r' = Comment r.

(** *** Integer literals *)

Definition is_digit (c : ascii) : bool :=
  let n := N_of_ascii c in ((48 <=? n) && (n <=? 57))%N.

Definition digit_val (c : ascii) : Z := Z.of_N (N_of_ascii c) - 48.

Definition is_space (c : ascii) : bool :=
  let n := N_of_ascii c in ((n =? 32) || ((9 <=? n) && (n <=? 13)))%N.

Definition lower (c : ascii) : ascii :=
  let n := N_of_ascii c in
  if ((65 <=? n) && (n <=? 90))%N then ascii_of_N (n + 32) else c.

Fixpoint skip_space (l : list ascii) : list ascii :=
  match l with
  | c :: l' => if is_space c then skip_space l' else l
  | [] => []
  end.

Definition strip (l : list ascii) : list ascii :=
  reverse (skip_space (reverse (skip_space l))).

(** Reads a run of digits: the accumulated value, the number of digits
    read, and the rest. *)
Fixpoint read_digits (acc : Z) (n : nat) (l : list ascii) : Z * nat * list ascii :=
  match l with
  | c :: l' =>
      if is_digit c then read_digits (10 * acc + digit_val c) (S n) l'
      else (acc, n, l)
  | [] => (acc, n, [])
  end.

Definition read_sign (l : list ascii) : bool * list ascii :=
  match l with
  | "-"%char :: l' => (true, l')
  | "+"%char :: l' => (false, l')
  | _ => (false, l)
  end.

Definition signed (neg : bool) (z : Z) : Z := if neg then - z else z.

(** The integer that [int()] reads from a text made of optional blanks,
    an optional sign and digits; [pd.to_numeric] reads such a cell as an
    integer, and any other number as a [float64]. *)
Definition int_literal (s : string) : option Z :=
  let '(neg, l1) := read_sign (strip (list_ascii_of_string s)) in
  let '(v, n, l2) := read_digits 0 0 l1 in
  match n, l2 with
  | S _, [] => Some (signed neg v)
  | _, _ => None
  end.

Section Normaliser.

(** The numeric-literal recogniser inside [pd.to_numeric]: the [float64]
    it reads from a text, [None] when the text is not a number.  The cell
    is modelled for any recogniser. *)
Variable to_double : string -> option Numeric.

(** The reading of a text that is a number: an integer for an integer
    literal, the [float64] otherwise. *)
Definition read_number (s : string) (f : Numeric) : Numeric :=
  match f with
  | NaN => NaN
  | _ => match int_literal s with
         | Some z => Integer z
         | None => f
         end
  end.

(** One cell of [pd.to_numeric(column, errors=...)]. *)
Definition to_numeric (errors : Errors) (x : RawId) : Result Numeric :=
  match x with
  | RawNull => Ok NaN
  | RawNumber v => Ok v
  | RawText s =>
      match to_double s with
      | Some f => Ok (read_number s f)
      | None =>
          match errors with
          | errors_coerce => Ok NaN
          | errors_raise => Raised ValueError
          end
      end
  end.

(** A malformed cell: text that the recogniser rejects. *)
Definition malformed (x : RawId) : Prop :=
  match x with
  | RawText s => to_double s = None
  | _ => False
  end.

(** What line 87 reads in a cell. *)
Definition coerced (x : RawId) : Numeric :=
  match x with
  | RawNull => NaN
  | RawNumber v => v
  | RawText s =>
      match to_double s with
      | Some f => read_number s f
      | None => NaN
      end
  end.

(** The [float64] of a cell. *)
Definition float_reading (x : RawId) : Numeric :=
  match x with
  | RawNull => NaN
  | RawNumber v => as_float64 v
  | RawText s => default NaN (to_double s)
  end.

(** [pd.to_numeric(column, errors=...)]: every cell is read, then the
    column takes its type. *)
Definition to_numeric_column (errors : Errors) (column : list RawId)
  : Result (list Numeric) :=
  values ← traverse (to_numeric errors) column;
  Ok (if exact_column values then values else float_reading <$> column).

(** The value line 87 stores in a cell of this table. *)
Definition stored (conversion_table : list (ConversionRecord RawId)) (x : RawId)
  : Numeric :=
  if exact_column (coerced <$> (ChEBI <$> conversion_table)) then coerced x
  else float_reading x.

Definition store_record (conversion_table : list (ConversionRecord RawId))
  (r : ConversionRecord RawId) : ConversionRecord Numeric :=
  set_ChEBI r (stored conversion_table (ChEBI r)).

(** Line 87. *)
Definition cell8_line87 (conversion_table : list (ConversionRecord RawId))
  : Result (list (ConversionRecord Numeric)) :=
  values ← to_numeric_column errors_coerce (ChEBI <$> conversion_table);
  Ok (zip_with set_ChEBI conversion_table values).

(** Lines 87 and 89. *)
Definition cell8_coerce_dropna (conversion_table : list (ConversionRecord RawId))
  : Result (list (ConversionRecord Numeric)) :=
  t ← cell8_line87 conversion_table;
  Ok (dropna t).

(** Lines 87 to 90. *)
Definition cell8_normalise (conversion_table : list (ConversionRecord RawId))
  : Result (list (ConversionRecord (option Z))) :=
  t ← cell8_coerce_dropna conversion_table;
  assign_ChEBI astype_Int64 t.

End Normaliser.

(** *** A recogniser for decimal literals

    Optional blanks around an optional sign, digits with an optional
    fraction, an optional exponent; and the names [nan], [inf] and
    [infinity] in any case.  The value read is the [float64] nearest to
    the number written. *)

(** The [float64] nearest to [n / d], for [0 < d]: a mantissa of 53 bits,
    ties to the even one, exponents from [-1074], an infinity from
    [2 ^ 1024] on. *)
Definition float64_of_Q (n d : Z) : Numeric :=
  let a := Z.abs n in
  if a =? 0 then Whole 0
  else
    let t := Z.log2 a - Z.log2 d in
    let above := if 0 <=? t then d * 2 ^ t <=? a else d <=? a * 2 ^ (- t) in
    let e := Z.max (- 1074) (if above then t - 52 else t - 53) in
    let num := if 0 <=? e then a else a * 2 ^ (- e) in
    let den := if 0 <=? e then d * 2 ^ e else d in
    let q := num / den in
    let r := num mod den in
    let q' := if (den <? 2 * r) || ((2 * r =? den) && Z.odd q) then q + 1 else q in
    if 0 <=? e then
      if 2 ^ 1024 <=? q' * 2 ^ e then Infinite else Whole (Z.sgn n * (q' * 2 ^ e))
    else if q' mod 2 ^ (- e) =? 0 then Whole (Z.sgn n * (q' / 2 ^ (- e)))
    else NotWhole.

(** [m * 10 ^ e] as a [float64]. *)
Definition scale10 (m e : Z) : Numeric :=
  if 0 <=? e then float64_of_Q (m * 10 ^ e) 1
  else float64_of_Q m (10 ^ (- e)).

Definition parse_decimal (l : list ascii) : option Numeric :=
  let '(neg, l1) := read_sign l in
  let '(ip, ni, l2) := read_digits 0 0 l1 in
  let '(m, nf, l3) :=
    match l2 with
    | "."%char :: l2' => read_digits ip 0 l2'
    | _ => (ip, 0%nat, l2)
    end in
  if (ni + nf =? 0)%nat then None
  else
    match l3 with
    | [] => Some (scale10 (signed neg m) (- Z.of_nat nf))
    | c :: l4 =>
        if bool_decide (lower c = "e"%char) then
          let '(eneg, l5) := read_sign l4 in
          let '(ev, ne, l6) := read_digits 0 0 l5 in
          match ne, l6 with
          | S _, [] => Some (scale10 (signed neg m) (signed eneg ev - Z.of_nat nf))
          | _, _ => None
          end
        else None
    end.

Definition parse_special (l : list ascii) : option Numeric :=
  let w := string_of_list_ascii (lower <$> l) in
  let body := string_of_list_ascii (read_sign (lower <$> l)).2 in
  if bool_decide (w = "nan") then Some NaN
  else if bool_decide (body = "inf" ∨ body = "infinity") then Some Infinite
  else None.

Definition decimal_to_double (s : string) : option Numeric :=
  let l := strip (list_ascii_of_string s) in
  match parse_decimal l with
  | Some v => Some v
  | None => parse_special l
  end.

(** ** Cell 10: re-annotation of the matrix columns *)

(** A column label of an abundance matrix: a compound name before
    re-annotation, a ChEBI identifier after it. *)
Inductive ColKey : Set :=
| Name (s : string)
| Chebi (id : Z).

#[global] Instance ColKey_eq_dec : EqDecision ColKey.
Proof. solve_decision. Defined.

(** Modelled from the spec: the entries of a conversion table that
    [sspa.map_identifiers] can use, query and non-null identifier, in table
    order (scenario 1 of section 8 drops the column resolved to null). *)
Definition entries (conversion_table : list (ConversionRecord (option Z)))
  : list (string * Z) :=
  omap (fun r => id ← ChEBI r; Some (Query r, id)) conversion_table.

(** Modelled from the spec: a column label has an entry when it is the
    query of a usable entry, or, for a matrix that is already
    re-annotated, the identifier of one. *)
Definition has_entry (conversion_table : list (ConversionRecord (option Z)))
  (c : ColKey) : Prop :=
  match c with
  | Name s => s ∈ (entries conversion_table).*1
  | Chebi i => i ∈ (entries conversion_table).*2
  end.

#[global] Instance has_entry_dec conversion_table c :
  Decision (has_entry conversion_table c).
Proof. destruct c; simpl; apply _. Defined.

(** Modelled from the spec: the identifier [sspa.map_identifiers] gives a
    column label.  A compound name gets the identifier of the last entry
    with that query, as a dictionary built from the table does; a label
    that is already an identifier of the table keeps it (section 8:
    re-annotating a re-annotated matrix changes nothing); any other label
    gets none. *)
Definition resolve (conversion_table : list (ConversionRecord (option Z)))
  (c : ColKey) : option Z :=
  match c with
  | Name s => snd <$> last (filter (fun e => e.1 = s) (entries conversion_table))
  | Chebi i => if decide (i ∈ (entries conversion_table).*2) then Some i else None
  end.

(** Modelled from the spec: the merge policy section 4.3 asks for, in the
    form of its first example: of several columns with one identifier the
    first encountered is kept, so the output keys are unique. *)
Fixpoint keep_first (seen : list Z) (targets : list (option Z)) : list (option Z) :=
  match targets with
  | [] => []
  | None :: ts => None :: keep_first seen ts
  | Some i :: ts =>
      if decide (i ∈ seen) then None :: keep_first seen ts
      else Some i :: keep_first (i :: seen) ts
  end.

(** The cells of a row at the positions where the mask holds. *)
Fixpoint select {V} (mask : list bool) (cells : list V) : list V :=
  match mask, cells with
  | b :: mask', v :: cells' =>
      if b then v :: select mask' cells' else select mask' cells'
  | _, _ => []
  end.

(** Modelled from the spec: [sspa.map_identifiers] (called on line 106) is
    library code that is not among the sources.  Section 4.3: the output is
    keyed by resolved identifier, a column whose label has no entry in the
    cleaned table is dropped, and the output keys are unique. *)
Definition map_identifiers {L V}
  (conversion_table : list (ConversionRecord (option Z)))
  (matrix : DataFrame.t L ColKey V) : DataFrame.t L ColKey V :=
  let target := keep_first [] (resolve conversion_table <$> DataFrame.columns matrix) in
  let mask := (fun o => bool_decide (is_Some o)) <$> target in
  DataFrame.mk (Chebi <$> omap id target)
               ((fun r => (r.1, select mask r.2)) <$> DataFrame.rows matrix).

(** ** Cell 40: pathway coverage *)

(** A pathway of the database: its name and its member identifiers; the
    database maps pathway identifiers to pathways. *)
Record Pathway : Type := mkPathway {
  Pathway_name : string;
  members : gset Z
}.

(** Modelled from the spec: the identifiers a matrix is annotated with,
    the [matrix.columns] of section 4.5. *)
Definition dataset_ids {L V} (matrix : DataFrame.t L ColKey V) : gset Z :=
  list_to_set (omap (fun c => match c with Chebi i => Some i | Name _ => None end)
                    (DataFrame.columns matrix)).

(** Modelled from the spec: the coverage of a pathway (glossary), how many
    of its members are in the dataset. *)
Definition coverage (ids : gset Z) (P : Pathway) : Z :=
  Z.of_nat (size (members P ∩ ids)).

(** Modelled from the spec: the coverage filter behind
    [pathintegrate.PathIntegrate(..., min_coverage=k)] (lines 454-459) is
    library code that is not among the sources.  Section 4.5: a minimum
    coverage [k <= 0] is rejected; otherwise the pathways with at least [k]
    members among the matrix columns are kept. *)
Definition coverage_filter {L V}
  (pathway_source : gmap string Pathway)
  (matrix : DataFrame.t L ColKey V) (min_coverage : Z)
  : Result (gmap string Pathway) :=
  if bool_decide (min_coverage ≤ 0) then Raised ValueError
  else Ok (filter (fun kv => min_coverage ≤ coverage (dataset_ids matrix) kv.2)
                  pathway_source).

(** The notebook's call passes the literal 4. *)
Definition cell40_min_coverage : Z := 4.


(** ** Scenario data *)

(** Sample sets [{A,B,C}] and [{B,C,D}]. *)
Definition s3_prot : DataFrame.t string ColKey Z :=
  DataFrame.mk [Name "P02768"; Name "P01024"]
    [("A", [11; 12]); ("B", [21; 22]); ("C", [31; 32])].
Definition s3_metab : DataFrame.t string ColKey Z :=
  DataFrame.mk [Chebi 17234; Chebi 422]
    [("B", [5; 6]); ("C", [7; 8]); ("D", [9; 10])].

(** Sample sets [{A,B}] and [{C,D}]. *)
Definition s4_prot : DataFrame.t string ColKey Z :=
  DataFrame.mk [Name "P02768"] [("A", [11]); ("B", [21])].
Definition s4_metab : DataFrame.t string ColKey Z :=
  DataFrame.mk [Chebi 17234] [("C", [7]); ("D", [9])].

(** The same two samples, listed in opposite orders. *)
Definition swapped_prot : DataFrame.t string ColKey Z :=
  DataFrame.mk [Name "P02768"] [("A", [11]); ("B", [21])].
Definition swapped_metab : DataFrame.t string ColKey Z :=
  DataFrame.mk [Chebi 17234] [("B", [5]); ("A", [3])].

(** Scenario 1: two resolved names and one unresolved name. *)
Definition raw_scenario1 : list (ConversionRecord RawId) :=
  [mkRecord "glucose" (RawText "17234") "1";
   mkRecord "lactate" (RawText "422") "1";
   mkRecord "unknownXYZ" RawNull "0"].

(** Identifiers that are numbers but not positive. *)
Definition raw_nonpositive : list (ConversionRecord RawId) :=
  [mkRecord "glucose" (RawText "17234") "1";
   mkRecord "compound X" (RawText "0") "1";
   mkRecord "compound Y" (RawText "-5") "1"].

(** An identifier that is a number but not a whole one. *)
Definition raw_fraction : list (ConversionRecord RawId) :=
  [mkRecord "glucose" (RawText "17234") "1";
   mkRecord "compound Z" (RawText "1.5") "1"].

(** Identifiers that are not numbers. *)
Definition raw_malformed : list (ConversionRecord RawId) :=
  [mkRecord "glucose" (RawText "17234") "1";
   mkRecord "lactate" (RawText "CHEBI:422") "1";
   mkRecord "unknownXYZ" (RawText "NA") "0"].


(** Scenario 2: the pathway database [{P1: {17234, 422, 999}, P2: {17234}}]
    and a matrix with columns [{17234, 422}]. *)
Definition s2_P1 : Pathway := mkPathway "Pathway one" {[17234; 422; 999]}.
Definition s2_P2 : Pathway := mkPathway "Pathway two" {[17234]}.
Definition s2_pathways : gmap string Pathway :=
  {["P1" := s2_P1; "P2" := s2_P2]}.
Definition s2_matrix : DataFrame.t string ColKey Z :=
  DataFrame.mk [Chebi 17234; Chebi 422] [("S1", [10; 20]); ("S2", [11; 21])].

(** ** Column operations on frames *)

Section Columns.
Context {L C V : Type} `{EqDecision C}.

(** Every row has one cell per column; every frame pandas builds is so. *)
Definition well_formed (df : DataFrame.t L C V) : Prop :=
  Forall (fun r => length r.2 = length (DataFrame.columns df)) (DataFrame.rows df).

(** [df.drop(columns=labels)] with the default [errors='raise']: [KeyError]
    when a label is not a column, otherwise every column carrying one of
    the labels is removed. *)
Definition drop_columns (df : DataFrame.t L C V) (labels : list C)
  : Result (DataFrame.t L C V) :=
  if bool_decide (Forall (fun c => c ∈ DataFrame.columns df) labels) then
    let mask := (fun c => bool_decide (c ∉ labels)) <$> DataFrame.columns df in
    Ok (DataFrame.mk (filter (fun c => c ∉ labels) (DataFrame.columns df))
                     ((fun r => (r.1, select mask r.2)) <$> DataFrame.rows df))
  else Raised KeyError.

(** What a completed [drop] leaves: the columns that carry none of the
    labels, in order, and in every row the same index label with each
    remaining cell still under its column label. *)
Definition columns_dropped (labels : list C) (df df' : DataFrame.t L C V) : Prop :=
  DataFrame.columns df' = filter (fun c => c ∉ labels) (DataFrame.columns df)
  /\ Forall2 (fun r r' =>
               r'.1 = r.1
               /\ (length r.2 = length (DataFrame.columns df) ->
                   zip (DataFrame.columns df') r'.2
                   = filter (fun x => x.1 ∉ labels) (zip (DataFrame.columns df) r.2)))
             (DataFrame.rows df) (DataFrame.rows df').

(** The position of a column label.  Column labels read by [pd.read_csv]
    are distinct (repeated headers are renamed), so the first position is
    the position. *)
Definition column_position (df : DataFrame.t L C V) (c : C) : option nat :=
  fst <$> list_find (fun c' => c' = c) (DataFrame.columns df).

(** What a completed [set_index] leaves: column [c], at some position,
    is removed from the columns, and row by row its cell has become the
    index label and left the cells. *)
Definition index_taken_from (c : C) (df : DataFrame.t L C V) (df' : DataFrame.t V C V)
  : Prop :=
  exists i,
    DataFrame.columns df !! i = Some c
    /\ DataFrame.columns df' = delete i (DataFrame.columns df)
    /\ Forall2 (fun r r' => r.2 !! i = Some r'.1 /\ r'.2 = delete i r.2)
               (DataFrame.rows df) (DataFrame.rows df').

(** [df.set_index(c)] with the defaults [drop=True, append=False]: the
    cells of column [c] become the index and the column is removed;
    [KeyError] when [c] is not a column.  A row without a cell at that
    position, which no well-formed frame has, yields no row. *)
Definition set_index (df : DataFrame.t L C V) (c : C) : Result (DataFrame.t V C V) :=
  match column_position df c with
  | None => Raised KeyError
  | Some i =>
      Ok (DataFrame.mk (delete i (DataFrame.columns df))
            (omap (fun r => v ← r.2 !! i; Some (v, delete i r.2)) (DataFrame.rows df)))
  end.

(** [df[c]]: the column as a series of labelled cells; [KeyError] when [c]
    is not a column. *)
Definition getitem (df : DataFrame.t L C V) (c : C) : Result (list (L * V)) :=
  match column_position df c with
  | None => Raised KeyError
  | Some i => Ok (omap (fun r => v ← r.2 !! i; Some (r.1, v)) (DataFrame.rows df))
  end.

(** [df.iloc[:, :-1]]: all columns but the last, by position. *)
Definition iloc_but_last (df : DataFrame.t L C V) : DataFrame.t L C V :=
  let n := (length (DataFrame.columns df) - 1)%nat in
  DataFrame.mk (take n (DataFrame.columns df))
               ((fun r => (r.1, take n r.2)) <$> DataFrame.rows df).

End Columns.

(** ** Cell 33: dropping the metadata columns (lines 379-380) *)

Definition metadata_columns : list string :=
  ["Who"; "Race"; "Age"; "Group"; "Age_Group"; "Race_Group"].

Definition cell33_drop {L V} (prot metab : DataFrame.t L string V)
  : Result (DataFrame.t L string V * DataFrame.t L string V) :=
  prot' ← drop_columns prot metadata_columns;
  metab' ← drop_columns metab metadata_columns;
  Ok (prot', metab').

(** ** Cell 34: the sample identifier becomes the index (lines 396-398)

    The third line displays [metab['Condition_Group'].value_counts()]; the
    column it counts is returned as it is, the counting is display only. *)
Definition cell34_set_index {L V} (prot metab : DataFrame.t L string V)
  : Result (DataFrame.t V string V * DataFrame.t V string V * list (V * V)) :=
  prot' ← set_index prot "sample_id";
  metab' ← set_index metab "sample_id";
  counted ← getitem metab' "Condition_Group";
  Ok (prot', metab', counted).

(** ** Cell 40: the arguments of [PathIntegrate] (lines 455-456) *)
Definition cell40_arguments {L V} (prot metab : DataFrame.t L string V)
  : Result (DataFrame.t L string V * DataFrame.t L string V * list (L * V)) :=
  let Metabolomics := iloc_but_last metab in
  let Proteomics := iloc_but_last prot in
  metadata ← getitem prot "Condition_Group";
  Ok (Metabolomics, Proteomics, metadata).

(** ** Cells 47 and 48: the train and test frames (lines 513, 524)

    [train_test_split] is library code with a random state; its two
    proteomics frames are taken as given. *)
Definition cell47_subset {L C V} `{EqDecision L}
  (metab X_train_prot X_test_prot : DataFrame.t L C V)
  : Result (DataFrame.t L C V * DataFrame.t L C V) :=
  X_train_met ← DataFrame.loc metab (DataFrame.index X_train_prot);
  X_test_met ← DataFrame.loc metab (DataFrame.index X_test_prot);
  Ok (X_train_met, X_test_met).

(** The [omics_data] of line 524, and of line 655 for the test frames:
    the metabolomics frame is passed whole, the proteomics frame without
    its last column. *)
Definition cell48_omics_data {L C V} `{EqDecision C}
  (X_train_met X_train_prot : DataFrame.t L C V)
  : DataFrame.t L C V * DataFrame.t L C V :=
  (X_train_met, iloc_but_last X_train_prot).

(** ** Cell 45: integer codes of the group labels (line 495) *)

(** [np.unique(ar, return_inverse=True)]: the distinct values in
    increasing order, and for every element its position among them. *)
Definition np_unique_inverse (ar : list string) : list string * list nat :=
  let labels := merge_sort String.le (remove_dups ar) in
  (labels, (fun v => from_option fst 0%nat (list_find (fun l => l = v) labels)) <$> ar).

(** ** Cell 14: counting the matches (lines 146-154) *)

(** Line 146: boolean indexing with [Comment == "1"] and [ChEBI] not null. *)
Definition chebi_matches (conversion_table : list (ConversionRecord (option Z)))
  : list (option Z) :=
  ChEBI <$> filter (fun r => Comment r = "1" /\ ChEBI r ≠ None) conversion_table.

(** Line 150: [set(sum(d.values(), []))] for the dictionary [d] that
    [sspa.utils.pathwaydf_to_dict] returns, given in insertion order. *)
Definition all_reactome_cpds {K} `{Countable K} (pathway_dict : list (string * list K))
  : gset K :=
  list_to_set (concat (snd <$> pathway_dict)).

(** Line 154. *)
Definition mapped_annotated_cpds {K} `{Countable K} (columns : list K)
  (pathway_dict : list (string * list K)) : gset K :=
  list_to_set columns ∩ all_reactome_cpds pathway_dict.

(** ** Cell 18: the indicator frame of the bar chart (lines 194-200) *)

(** A cell of the indicator frame while it is built. *)
Inductive Cell : Set :=
| CellStr (s : string)
| CellNum (z : Z)
| CellNaN.

#[global] Instance Cell_eq_dec : EqDecision Cell.
Proof. solve_decision. Defined.

(** [dict(zip(conversion_table["Query"], conversion_table["ChEBI"]))]: a
    later record replaces an earlier one with the same query. *)
Definition dict_zip (conversion_table : list (ConversionRecord (option Z)))
  : gmap string (option Z) :=
  foldl (fun d r => <[Query r := ChEBI r]> d) ∅ conversion_table.







(** ** Running cell 8 again *)

(** The [Int64] cell that cell 8 leaves, as [pd.to_numeric] finds it when
    the cell is run a second time. *)
Definition reread (o : option Z) : RawId :=
  match o with
  | Some z => RawNumber (Integer z)
  | None => RawNull
  end.

(** The results of cell 35 on scenario 3. *)
Definition s3_prot_aligned : DataFrame.t string ColKey Z :=
  DataFrame.mk [Name "P02768"; Name "P01024"] [("B", [21; 22]); ("C", [31; 32])].
Definition s3_metab_aligned : DataFrame.t string ColKey Z :=
  DataFrame.mk [Chebi 17234; Chebi 422] [("B", [5; 6]); ("C", [7; 8])].

(** Two frames as [pd.read_csv] returns them: a default integer index, the
    sample identifier, the six metadata columns, one measurement and the
    group label. *)
Definition csv_prot : DataFrame.t nat string string :=
  DataFrame.mk
    ["sample_id"; "Who"; "Race"; "Age"; "Group"; "Age_Group"; "Race_Group";
     "P02768"; "Condition_Group"]
    [(0%nat, ["A"; "3"; "White"; "61"; "COVID19 "; "60+"; "W"; "0.52"; "COVID"]);
     (1%nat, ["B"; "0"; "Asian"; "35"; "Healthy"; "30-39"; "A"; "0.48"; "Control"]);
     (2%nat, ["C"; "5"; "Black"; "47"; "COVID19 "; "40-49"; "B"; "0.61"; "COVID"])].
Definition csv_metab : DataFrame.t nat string string :=
  DataFrame.mk
    ["sample_id"; "Who"; "Race"; "Age"; "Group"; "Age_Group"; "Race_Group";
     "17234"; "Condition_Group"]
    [(0%nat, ["B"; "0"; "Asian"; "35"; "Healthy"; "30-39"; "A"; "1.7"; "Control"]);
     (1%nat, ["C"; "5"; "Black"; "47"; "COVID19 "; "40-49"; "B"; "2.9"; "COVID"]);
     (2%nat, ["D"; "4"; "White"; "52"; "COVID19 "; "50-59"; "W"; "3.1"; "COVID"])].

(** The same frames after cell 33. *)
Definition dropped_prot : DataFrame.t nat string string :=
  DataFrame.mk ["sample_id"; "P02768"; "Condition_Group"]
    [(0%nat, ["A"; "0.52"; "COVID"]);
     (1%nat, ["B"; "0.48"; "Control"]);
     (2%nat, ["C"; "0.61"; "COVID"])].
Definition dropped_metab : DataFrame.t nat string string :=
  DataFrame.mk ["sample_id"; "17234"; "Condition_Group"]
    [(0%nat, ["B"; "1.7"; "Control"]);
     (1%nat, ["C"; "2.9"; "COVID"]);
     (2%nat, ["D"; "3.1"; "COVID"])].

(** And after cell 34. *)
Definition indexed_prot : DataFrame.t string string string :=
  DataFrame.mk ["P02768"; "Condition_Group"]
    [("A", ["0.52"; "COVID"]); ("B", ["0.48"; "Control"]); ("C", ["0.61"; "COVID"])].
Definition indexed_metab : DataFrame.t string string string :=
  DataFrame.mk ["17234"; "Condition_Group"]
    [("B", ["1.7"; "Control"]); ("C", ["2.9"; "COVID"]); ("D", ["3.1"; "COVID"])].

(** After cell 35 (common samples [B] and [C]), and a split of the aligned
    proteomics frame into one training and one test sample. *)
Definition aligned_metab : DataFrame.t string string string :=
  DataFrame.mk ["17234"; "Condition_Group"]
    [("B", ["1.7"; "Control"]); ("C", ["2.9"; "COVID"])].
Definition train_prot : DataFrame.t string string string :=
  DataFrame.mk ["P02768"; "Condition_Group"] [("C", ["0.61"; "COVID"])].
Definition test_prot : DataFrame.t string string string :=
  DataFrame.mk ["P02768"; "Condition_Group"] [("B", ["0.48"; "Control"])].
Definition train_met : DataFrame.t string string string :=
  DataFrame.mk ["17234"; "Condition_Group"] [("C", ["2.9"; "COVID"])].
Definition test_met : DataFrame.t string string string :=
  DataFrame.mk ["17234"; "Condition_Group"] [("B", ["1.7"; "Control"])].

(** * Properties *)

(** ** The result type *)

Lemma traverse_Ok {A B} (f : A -> Result B) (g : A -> B) (l : list A) :
  Forall (fun x => f x = Ok (g x)) l -> traverse f l = Ok (g <$> l).
Proof.
  induction 1 as [|x l Hx _ IH]; simpl; [done|].
  by rewrite Hx; simpl; rewrite IH.
Qed.

Lemma traverse_Ok_inv {A B} (f : A -> Result B) (l : list A) (ys : list B) :
  traverse f l = Ok ys -> Forall2 (fun x y => f x = Ok y) l ys.
Proof.
  revert ys; induction l as [|x l IH]; intros ys; simpl.
  - intros [= <-]; constructor.
  - destruct (f x) as [y|e] eqn:Hx; simpl; [|done].
    destruct (traverse f l) as [ys'|e] eqn:Hl; simpl; [|done].
    intros [= <-]; constructor; auto.
Qed.

Lemma traverse_Raised_inv {A B} (f : A -> Result B) (l : list A) (e : Exception) :
  traverse f l = Raised e -> exists x, x ∈ l /\ f x = Raised e.
Proof.
  induction l as [|x l IH]; simpl; [done|].
  destruct (f x) as [y|e'] eqn:Hx; simpl.
  - destruct (traverse f l) as [ys'|e'] eqn:Hl; simpl; [done|].
    intros [= <-]. destruct IH as (x' & Hin & Hx'); [done|].
    exists x'; split; [by right|done].
  - intros [= <-]; exists x; split; [by left|done].
Qed.

(** ** Index operations *)

Section IndexFacts.
Context {L : Type} `{EqDecision L}.

Lemma unique_from_fresh (seen l : list L) :
  NoDup l -> (forall x, x ∈ l -> x ∉ seen) -> unique_from seen l = l.
Proof.
  intros Hnd; revert seen; induction Hnd as [|x l Hx Hnd IH]; intros seen Hs; simpl; [done|].
  destruct (decide (x ∈ seen)) as [Hin|_].
  - exfalso; apply (Hs x); [by left|done].
  - f_equal; apply IH; intros y Hy [->|Hy']%elem_of_cons; [done|].
    apply (Hs y); [by right|done].
Qed.

Lemma Index_unique_NoDup (l : list L) : NoDup l -> Index_unique l = l.
Proof. intros Hnd; apply unique_from_fresh; [done|]. intros x _; apply not_elem_of_nil. Qed.

Lemma elem_of_unique_from (seen l : list L) (x : L) :
  x ∈ unique_from seen l <-> x ∈ l /\ x ∉ seen.
Proof.
  revert seen; induction l as [|y l IH]; intros seen; simpl.
  - split; [by intros ?%elem_of_nil|by intros [?%elem_of_nil _]].
  - destruct (decide (y ∈ seen)) as [Hin|Hout].
    + rewrite IH, elem_of_cons. split; [tauto|].
      intros [[->|?] ?]; [done|by split].
    + rewrite !elem_of_cons, IH, elem_of_cons. split.
      * intros [->|[? ?]]; [split; [by left|done]|split; [by right|tauto]].
      * intros [[->|?] ?]; [by left|].
        destruct (decide (x = y)) as [->|]; [by left|right; tauto].
Qed.

Lemma elem_of_Index_intersection (self other : list L) (x : L) :
  x ∈ Index_intersection self other <-> x ∈ self /\ x ∈ other.
Proof.
  unfold Index_intersection, Index_unique.
  rewrite list_elem_of_filter, elem_of_unique_from.
  split; [tauto|]. intros [? ?]; repeat split; [done..|apply not_elem_of_nil].
Qed.

Lemma Index_intersection_NoDup (self other : list L) :
  NoDup self -> Index_intersection self other = filter (fun l => l ∈ other) self.
Proof. intros Hnd; unfold Index_intersection; by rewrite Index_unique_NoDup. Qed.

Lemma Index_intersection_disjoint (self other : list L) :
  (forall l, l ∈ self -> l ∉ other) -> Index_intersection self other = [].
Proof.
  intros Hd. destruct (Index_intersection self other) as [|x l] eqn:E; [done|].
  assert (x ∈ Index_intersection self other) as Hx by (rewrite E; by left).
  apply elem_of_Index_intersection in Hx as [? ?]; exfalso; by eapply Hd.
Qed.

End IndexFacts.

(** ** Row selection by label *)

Section LocFacts.
Context {L C V : Type} `{EqDecision L}.
Implicit Types (df : DataFrame.t L C V) (l : L) (key : list L).

Lemma index_mk (cols : list C) (rs : list (L * list V)) :
  DataFrame.index (DataFrame.mk cols rs) = rs.*1.
Proof. done. Qed.

Lemma rows_at_nonempty df l :
  l ∈ DataFrame.index df -> DataFrame.rows_at df l <> [].
Proof.
  unfold DataFrame.index; intros ([l' cells] & -> & Hin)%list_elem_of_fmap.
  simpl; intros Hnil.
  assert ((l', cells) ∈ DataFrame.rows_at df l') as Hr
    by (unfold DataFrame.rows_at; apply list_elem_of_filter; by split).
  rewrite Hnil in Hr; by apply elem_of_nil in Hr.
Qed.

Lemma loc1_Ok df l :
  l ∈ DataFrame.index df -> DataFrame.loc1 df l = Ok (DataFrame.rows_at df l).
Proof.
  intros Hin%rows_at_nonempty; unfold DataFrame.loc1.
  by destruct (DataFrame.rows_at df l).
Qed.

(** A key made of index labels never raises. *)
Lemma loc_Ok df key :
  Forall (fun l => l ∈ DataFrame.index df) key ->
  DataFrame.loc df key
  = Ok (DataFrame.mk (DataFrame.columns df) (concat (DataFrame.rows_at df <$> key))).
Proof.
  intros Hk; unfold DataFrame.loc.
  rewrite (traverse_Ok _ (DataFrame.rows_at df)); [done|].
  eapply Forall_impl; [exact Hk|]; intros l; apply loc1_Ok.
Qed.

(** A label outside the index raises. *)
Lemma loc1_KeyError df l :
  l ∉ DataFrame.index df -> DataFrame.loc1 df l = Raised KeyError.
Proof.
  intros Hout; unfold DataFrame.loc1, DataFrame.rows_at.
  destruct (filter _ _) as [|r rs] eqn:E; [done|].
  assert (r ∈ filter (fun r => r.1 = l) (DataFrame.rows df)) as Hr
    by (rewrite E; by left).
  apply list_elem_of_filter in Hr as [<- Hr]; exfalso; apply Hout.
  unfold DataFrame.index; apply list_elem_of_fmap; by exists r.
Qed.

End LocFacts.

(** ** Frames with a unique index *)

Lemma elem_of_concat {A} (x : A) (ls : list (list A)) :
  x ∈ concat ls <-> exists l, x ∈ l /\ l ∈ ls.
Proof.
  induction ls as [|k ls IH]; simpl.
  - split; [by intros ?%elem_of_nil|by intros (? & _ & ?%elem_of_nil)].
  - rewrite elem_of_app, IH; split.
    + intros [?|(l & ? & ?)]; [exists k; split; [done|by left]|].
      exists l; split; [done|by right].
    + intros (l & Hx & [->|?]%elem_of_cons); [by left|right; by exists l].
Qed.

Section UniqueIndex.
Context {L V : Type} `{EqDecision L}.
Implicit Types (rs : list (L * list V)) (l : L) (key : list L).

Lemma filter_label_not_in rs l :
  l ∉ rs.*1 -> filter (fun r => r.1 = l) rs = [].
Proof.
  intros Hout; induction rs as [|r rs IH]; [done|].
  rewrite fmap_cons, not_elem_of_cons in Hout; destruct Hout as [Hne Hout].
  rewrite filter_cons_False by (intros ?; by apply Hne). by apply IH.
Qed.

Lemma filter_label_unique rs l :
  NoDup rs.*1 -> l ∈ rs.*1 -> (filter (fun r => r.1 = l) rs).*1 = [l].
Proof.
  induction rs as [|r rs IH]; [by intros _ ?%elem_of_nil|].
  rewrite fmap_cons, NoDup_cons; intros [Hr Hnd] Hin.
  destruct (decide (r.1 = l)) as [<-|Hne].
  - rewrite filter_cons_True by done.
    by rewrite filter_label_not_in.
  - rewrite filter_cons_False by done.
    apply elem_of_cons in Hin as [->|Hin]; [done|by apply IH].
Qed.

(** Selecting by a filtered copy of the index is filtering the rows. *)
Lemma select_filtered_index (P : L -> Prop) `{forall l, Decision (P l)}
  `{forall r : L * list V, Decision (P r.1)} rs :
  NoDup rs.*1 ->
  concat ((fun l => filter (fun r => r.1 = l) rs) <$> filter P rs.*1)
  = filter (fun r => P r.1) rs.
Proof.
  induction rs as [|r rs IH]; [done|].
  rewrite fmap_cons, NoDup_cons; intros [Hr Hnd].
  assert (Forall (fun l => filter (fun r0 => r0.1 = l) (r :: rs)
                           = filter (fun r0 => r0.1 = l) rs) (filter P rs.*1)) as Hrest.
  { apply Forall_forall; intros l [_ Hl]%list_elem_of_filter.
    apply filter_cons_False; intros Heq; apply Hr; by rewrite Heq. }
  apply Forall_fmap_ext in Hrest.
  destruct (decide (P r.1)) as [HP|HP].
  - rewrite !filter_cons_True by done.
    rewrite fmap_cons, Hrest; simpl.
    rewrite filter_cons_True by done.
    rewrite filter_label_not_in by done; simpl. by rewrite IH.
  - rewrite !filter_cons_False by done. by rewrite Hrest, IH.
Qed.

(** Selecting by labels of the index yields exactly those labels, in key
    order. *)
Lemma select_index rs key :
  NoDup rs.*1 -> Forall (fun l => l ∈ rs.*1) key ->
  (concat ((fun l => filter (fun r => r.1 = l) rs) <$> key)).*1 = key.
Proof.
  intros Hnd; induction 1 as [|l key Hl _ IH]; [done|].
  rewrite fmap_cons; simpl. rewrite fmap_app, IH.
  by rewrite filter_label_unique.
Qed.

Lemma select_Permutation rs key :
  NoDup rs.*1 -> NoDup key -> Forall (fun l => l ∈ rs.*1) key ->
  concat ((fun l => filter (fun r => r.1 = l) rs) <$> key)
  ≡ₚ filter (fun r => r.1 ∈ key) rs.
Proof.
  intros Hnd Hk Hin. apply NoDup_Permutation.
  - apply (NoDup_fmap_1 fst). by rewrite select_index.
  - apply NoDup_filter. by apply (NoDup_fmap_1 fst).
  - intros r. rewrite elem_of_concat, list_elem_of_filter. split.
    + intros (k & Hr & (l & -> & Hl)%list_elem_of_fmap).
      apply list_elem_of_filter in Hr as [<- Hr]. by split.
    + intros [Hl Hr]. exists (filter (fun r0 => r0.1 = r.1) rs). split.
      * apply list_elem_of_filter; by split.
      * apply list_elem_of_fmap. by exists r.1.
Qed.

(** Two row lists over distinct labels that hold the same rows and list the
    same labels are the same list. *)
Lemma Permutation_same_index rs1 rs2 :
  NoDup rs2.*1 -> rs1 ≡ₚ rs2 -> rs1.*1 = rs2.*1 -> rs1 = rs2.
Proof.
  revert rs2; induction rs1 as [|a rs1 IH]; intros [|b rs2]; try done.
  rewrite !fmap_cons, NoDup_cons; intros [Hb Hnd] Hperm [= Hab Hidx].
  assert (a = b) as ->.
  { assert (a ∈ b :: rs2) as Ha by (rewrite <- Hperm; by left).
    apply elem_of_cons in Ha as [?|Ha]; [done|].
    exfalso; apply Hb; rewrite <- Hab.
    apply list_elem_of_fmap; by exists a. }
  f_equal; apply IH; [done| |done]. by apply Permutation_cons_inv in Hperm.
Qed.

End UniqueIndex.

(** ** Cell 35 *)

Section Cell35Facts.
Context {L C V : Type} `{EqDecision L}.
Implicit Types (prot metab : DataFrame.t L C V).

(** The cell never raises: every common label is in both indexes. *)
Lemma cell35_align_Ok prot metab :
  let common_indices :=
    Index_intersection (DataFrame.index prot) (DataFrame.index metab) in
  cell35_align prot metab
  = Ok (DataFrame.mk (DataFrame.columns prot)
          (concat (DataFrame.rows_at prot <$> common_indices)),
        DataFrame.mk (DataFrame.columns metab)
          (concat (DataFrame.rows_at metab <$> common_indices))).
Proof.
  intros common; unfold cell35_align; fold common.
  rewrite !loc_Ok; [done| |];
    apply Forall_forall; intros l Hl%elem_of_Index_intersection; tauto.
Qed.

End Cell35Facts.

(** C1, as stated, fails: on the sample sets [{A,B}] and [{C,D}] the cell
    raises nothing and returns both frames without rows. *)
Lemma C1_no_common_samples_returns_empty :
  Index_intersection (DataFrame.index s4_prot) (DataFrame.index s4_metab) = []
  /\ completes (cell35_align s4_prot s4_metab)
  /\ cell35_align s4_prot s4_metab
     = Ok (DataFrame.mk [Name "P02768"] [], DataFrame.mk [Chebi 17234] []).
Proof. by vm_compute. Qed.

(** C1, amended: when the two frames share no sample label, the cell
    completes without an exception and returns both frames with their
    columns and no rows. *)
Theorem C1_align_disjoint {L C V} `{EqDecision L} (prot metab : DataFrame.t L C V) :
  (forall l, l ∈ DataFrame.index prot -> l ∉ DataFrame.index metab) ->
  cell35_align prot metab
  = Ok (DataFrame.mk (DataFrame.columns prot) [],
        DataFrame.mk (DataFrame.columns metab) []).
Proof.
  intros Hd. rewrite cell35_align_Ok.
  by rewrite (Index_intersection_disjoint _ _ Hd).
Qed.

Lemma C1_align_disjoint_witness :
  (forall l, l ∈ DataFrame.index s4_prot -> l ∉ DataFrame.index s4_metab)
  /\ cell35_align s4_prot s4_metab
     = Ok (DataFrame.mk (DataFrame.columns s4_prot) [],
           DataFrame.mk (DataFrame.columns s4_metab) []).
Proof.
  assert (forall l, l ∈ DataFrame.index s4_prot -> l ∉ DataFrame.index s4_metab) as Hd.
  { intros l Hl Hm. vm_compute in Hl, Hm.
    repeat (apply elem_of_cons in Hl as [->|Hl]);
      try (by apply elem_of_nil in Hl);
      repeat (apply elem_of_cons in Hm as [Hm|Hm]; [discriminate Hm|]);
      by apply elem_of_nil in Hm. }
  split; [exact Hd|exact (C1_align_disjoint s4_prot s4_metab Hd)].
Defined.

Lemma filter_iff_in {A} (P Q : A -> Prop)
  `{forall x, Decision (P x)} `{forall x, Decision (Q x)} (l : list A) :
  (forall x, x ∈ l -> P x <-> Q x) -> filter P l = filter Q l.
Proof.
  induction l as [|a l IH]; intros HPQ; [done|].
  assert (filter P l = filter Q l) as IH'
    by (apply IH; intros x Hx; apply HPQ; by right).
  destruct (decide (P a)) as [HP|HP].
  - rewrite !filter_cons_True; [by rewrite IH'|by apply HPQ; [left|]|done].
  - rewrite !filter_cons_False; [done| |done].
    intros HQ; apply HP, HPQ; [by left|done].
Qed.

Section Cell35Unique.
Context {L C V : Type} `{EqDecision L}.
Implicit Types (prot metab : DataFrame.t L C V).

(** With unique sample labels, the first frame is filtered in place. *)
Lemma align_rows_prot prot metab :
  NoDup (DataFrame.index prot) ->
  concat (DataFrame.rows_at prot
            <$> Index_intersection (DataFrame.index prot) (DataFrame.index metab))
  = filter (fun r => r.1 ∈ DataFrame.index metab) (DataFrame.rows prot).
Proof.
  intros Hp. rewrite Index_intersection_NoDup by done.
  unfold DataFrame.rows_at, DataFrame.index in *.
  by rewrite (select_filtered_index (fun l => l ∈ (DataFrame.rows metab).*1)).
Qed.

(** The second frame is listed by the common labels in the order of the
    first. *)
Lemma align_index_metab prot metab :
  NoDup (DataFrame.index metab) ->
  (concat (DataFrame.rows_at metab
             <$> Index_intersection (DataFrame.index prot) (DataFrame.index metab))).*1
  = Index_intersection (DataFrame.index prot) (DataFrame.index metab).
Proof.
  intros Hm. unfold DataFrame.rows_at. apply select_index; [done|].
  apply Forall_forall; intros l Hl%elem_of_Index_intersection; tauto.
Qed.

Lemma align_rows_metab prot metab :
  NoDup (DataFrame.index prot) -> NoDup (DataFrame.index metab) ->
  concat (DataFrame.rows_at metab
            <$> Index_intersection (DataFrame.index prot) (DataFrame.index metab))
  ≡ₚ filter (fun r => r.1 ∈ DataFrame.index prot) (DataFrame.rows metab).
Proof.
  intros Hp Hm. unfold DataFrame.rows_at.
  etrans; [apply select_Permutation|].
  - done.
  - rewrite Index_intersection_NoDup by done. by apply NoDup_filter.
  - apply Forall_forall; intros l Hl%elem_of_Index_intersection; tauto.
  - erewrite filter_iff_in; [done|]. intros r Hr; simpl.
    rewrite elem_of_Index_intersection. split; [tauto|].
    intros ?; split; [done|]. apply list_elem_of_fmap; by exists r.
Qed.

End Cell35Unique.

Lemma fmap_fst_filter {A B} (P : A -> Prop) `{forall x, Decision (P x)}
  `{forall r : A * B, Decision (P r.1)} (l : list (A * B)) :
  (filter (fun r => P r.1) l).*1 = filter P l.*1.
Proof.
  induction l as [|a l IH]; [done|].
  rewrite fmap_cons. destruct (decide (P a.1)).
  - rewrite !filter_cons_True by done. by rewrite fmap_cons, IH.
  - by rewrite !filter_cons_False by done.
Qed.

(** C6, as stated, fails for the second frame: with samples [A, B] in the
    first frame and [B, A] in the second, the aligned second frame lists
    [A] before [B], which is not its own row order. *)
Lemma C6_second_frame_reordered :
  NoDup (DataFrame.index swapped_prot)
  /\ NoDup (DataFrame.index swapped_metab)
  /\ cell35_align swapped_prot swapped_metab
     = Ok (DataFrame.mk [Name "P02768"] [("A", [11]); ("B", [21])],
           DataFrame.mk [Chebi 17234] [("A", [3]); ("B", [5])])
  /\ ~ sublist [("A", [3]); ("B", [5])] (DataFrame.rows swapped_metab).
Proof.
  split; [|split; [|split]].
  - apply (bool_decide_unpack _); by vm_compute.
  - apply (bool_decide_unpack _); by vm_compute.
  - by vm_compute.
  - intros Hs; vm_compute in Hs.
    apply sublist_length in Hs as Hlen.
    inversion Hs as [|x l1 l2 H1|x l1 l2 H1]; subst.
    inversion H1 as [|y k1 k2 H2|y k1 k2 H2]; subst.
    + inversion H2.
    + apply sublist_length in H2; simpl in H2; lia.
Qed.

(** C6, amended: for two frames with unique sample labels the cell returns
    both frames with their columns; the first frame is row-filtered to the
    common samples in its own row order; the second frame holds exactly its
    rows of the common samples, listed in the order of the first frame,
    which is its own row order whenever both frames list the common
    samples in the same order. *)
Theorem C6_align_restricts {L C V} `{EqDecision L} (prot metab : DataFrame.t L C V) :
  NoDup (DataFrame.index prot) ->
  NoDup (DataFrame.index metab) ->
  exists prot' metab',
    cell35_align prot metab = Ok (prot', metab')
    /\ DataFrame.columns prot' = DataFrame.columns prot
    /\ DataFrame.columns metab' = DataFrame.columns metab
    /\ DataFrame.rows prot'
       = filter (fun r => r.1 ∈ DataFrame.index metab) (DataFrame.rows prot)
    /\ DataFrame.rows metab'
       ≡ₚ filter (fun r => r.1 ∈ DataFrame.index prot) (DataFrame.rows metab)
    /\ DataFrame.index metab' = DataFrame.index prot'
    /\ (filter (fun l => l ∈ DataFrame.index prot) (DataFrame.index metab)
        = filter (fun l => l ∈ DataFrame.index metab) (DataFrame.index prot) ->
        DataFrame.rows metab'
        = filter (fun r => r.1 ∈ DataFrame.index prot) (DataFrame.rows metab)).
Proof.
  intros Hp Hm. eexists _, _. split; [apply cell35_align_Ok|]. simpl.
  pose proof (align_rows_prot prot metab Hp) as Hrp.
  pose proof (align_rows_metab prot metab Hp Hm) as Hrm.
  pose proof (align_index_metab prot metab Hm) as Him.
  repeat split; try done.
  - rewrite !index_mk, Him, Hrp.
    rewrite (fmap_fst_filter (fun l => l ∈ DataFrame.index metab)).
    by rewrite Index_intersection_NoDup.
  - intros Hsame. apply Permutation_same_index; [|done|].
    + rewrite (fmap_fst_filter (fun l => l ∈ DataFrame.index prot)).
      by apply NoDup_filter.
    + rewrite Him, (fmap_fst_filter (fun l => l ∈ DataFrame.index prot)).
      rewrite Index_intersection_NoDup by done.
      symmetry; exact Hsame.
Qed.

Lemma C6_align_restricts_witness :
  NoDup (DataFrame.index s3_prot)
  /\ NoDup (DataFrame.index s3_metab)
  /\ exists prot' metab',
       cell35_align s3_prot s3_metab = Ok (prot', metab')
       /\ DataFrame.columns prot' = DataFrame.columns s3_prot
       /\ DataFrame.columns metab' = DataFrame.columns s3_metab
       /\ DataFrame.rows prot'
          = filter (fun r => r.1 ∈ DataFrame.index s3_metab) (DataFrame.rows s3_prot)
       /\ DataFrame.rows metab'
          ≡ₚ filter (fun r => r.1 ∈ DataFrame.index s3_prot) (DataFrame.rows s3_metab)
       /\ DataFrame.index metab' = DataFrame.index prot'
       /\ (filter (fun l => l ∈ DataFrame.index s3_prot) (DataFrame.index s3_metab)
           = filter (fun l => l ∈ DataFrame.index s3_metab) (DataFrame.index s3_prot) ->
           DataFrame.rows metab'
           = filter (fun r => r.1 ∈ DataFrame.index s3_prot) (DataFrame.rows s3_metab)).
Proof.
  assert (NoDup (DataFrame.index s3_prot)) as Hp
    by (apply (bool_decide_unpack _); vm_compute; exact I).
  assert (NoDup (DataFrame.index s3_metab)) as Hm
    by (apply (bool_decide_unpack _); vm_compute; exact I).
  split; [exact Hp|split; [exact Hm|]].
  exact (C6_align_restricts s3_prot s3_metab Hp Hm).
Defined.

(** Scenario 3: sample sets [{A,B,C}] and [{B,C,D}] align to [B, C], both
    frames in their own row order. *)
Example scenario3_align :
  cell35_align s3_prot s3_metab
  = Ok (DataFrame.mk [Name "P02768"; Name "P01024"] [("B", [21; 22]); ("C", [31; 32])],
        DataFrame.mk [Chebi 17234; Chebi 422] [("B", [5; 6]); ("C", [7; 8])]).
Proof. by vm_compute. Qed.

(** C9: for two frames with unique sample labels the cell returns two
    frames with the same index, element for element: the index of the
    first frame restricted to the labels of the second. *)
Theorem C9_align_same_index {L C V} `{EqDecision L} (prot metab : DataFrame.t L C V) :
  NoDup (DataFrame.index prot) ->
  NoDup (DataFrame.index metab) ->
  exists prot' metab',
    cell35_align prot metab = Ok (prot', metab')
    /\ DataFrame.index prot'
       = filter (fun l => l ∈ DataFrame.index metab) (DataFrame.index prot)
    /\ DataFrame.index metab'
       = filter (fun l => l ∈ DataFrame.index metab) (DataFrame.index prot)
    /\ DataFrame.index prot' = DataFrame.index metab'.
Proof.
  intros Hp Hm. eexists _, _. split; [apply cell35_align_Ok|].
  rewrite !index_mk.
  rewrite (align_index_metab prot metab Hm), (align_rows_prot prot metab Hp).
  rewrite (fmap_fst_filter (fun l => l ∈ DataFrame.index metab)).
  by rewrite Index_intersection_NoDup.
Qed.

Lemma C9_align_same_index_witness :
  NoDup (DataFrame.index s3_prot)
  /\ NoDup (DataFrame.index s3_metab)
  /\ exists prot' metab',
       cell35_align s3_prot s3_metab = Ok (prot', metab')
       /\ DataFrame.index prot'
          = filter (fun l => l ∈ DataFrame.index s3_metab) (DataFrame.index s3_prot)
       /\ DataFrame.index metab'
          = filter (fun l => l ∈ DataFrame.index s3_metab) (DataFrame.index s3_prot)
       /\ DataFrame.index prot' = DataFrame.index metab'.
Proof.
  assert (NoDup (DataFrame.index s3_prot)) as Hp
    by (apply (bool_decide_unpack _); vm_compute; exact I).
  assert (NoDup (DataFrame.index s3_metab)) as Hm
    by (apply (bool_decide_unpack _); vm_compute; exact I).
  split; [exact Hp|split; [exact Hm|]].
  exact (C9_align_same_index s3_prot s3_metab Hp Hm).
Defined.

(** ** Cell 8 *)

Section Cell8Facts.
Variable to_double : string -> option Numeric.

Lemma to_numeric_coerce (x : RawId) :
  to_numeric to_double errors_coerce x = Ok (coerced to_double x).
Proof. destruct x as [|v|s]; simpl; [done..|]. by destruct (to_double s). Qed.

Lemma read_number_NaN (s : string) (f : Numeric) : read_number s f = NaN <-> f = NaN.
Proof. unfold read_number. destruct f, (int_literal s); done. Qed.

Lemma malformed_coerced (x : RawId) :
  malformed to_double x -> coerced to_double x = NaN.
Proof. destruct x as [|v|s]; simpl; [done..|]. by intros ->. Qed.

Lemma float64_of_Z_not_NaN (z : Z) : float64_of_Z z ≠ NaN.
Proof. unfold float64_of_Z. repeat case_match; done. Qed.

Lemma as_float64_NaN (v : Numeric) : as_float64 v = NaN <-> v = NaN.
Proof.
  destruct v as [|z| | |z]; simpl; try done.
  split; [|done]. intros H. by apply float64_of_Z_not_NaN in H.
Qed.

Lemma float_reading_NaN (x : RawId) :
  float_reading to_double x = NaN <-> coerced to_double x = NaN.
Proof.
  destruct x as [|v|s]; simpl; [done|apply as_float64_NaN|].
  destruct (to_double s) as [f|]; simpl; [|done]. by rewrite read_number_NaN.
Qed.

(** Storing a value never makes it null, and never makes a null a value. *)
Lemma stored_NaN (t : list (ConversionRecord RawId)) (x : RawId) :
  stored to_double t x = NaN <-> coerced to_double x = NaN.
Proof. unfold stored. case_match; [done|apply float_reading_NaN]. Qed.

Lemma malformed_stored (t : list (ConversionRecord RawId)) (x : RawId) :
  malformed to_double x -> stored to_double t x = NaN.
Proof. intros H. by apply stored_NaN, malformed_coerced. Qed.

Lemma to_numeric_column_Ok (t : list (ConversionRecord RawId)) :
  to_numeric_column to_double errors_coerce (ChEBI <$> t)
  = Ok (stored to_double t <$> (ChEBI <$> t)).
Proof.
  unfold to_numeric_column.
  rewrite (traverse_Ok _ (coerced to_double))
    by (apply Forall_forall; intros x _; apply to_numeric_coerce).
  simpl. f_equal. unfold stored.
  by destruct (exact_column (coerced to_double <$> (ChEBI <$> t))).
Qed.

Lemma zip_with_set_ChEBI {I J} (f : I -> J) (t : list (ConversionRecord I)) :
  zip_with set_ChEBI t (f <$> (ChEBI <$> t)) = (fun r => set_ChEBI r (f (ChEBI r))) <$> t.
Proof. induction t as [|r t IH]; [done|]. rewrite !fmap_cons; simpl. by rewrite IH. Qed.

(** Line 87 never raises. *)
Lemma line87_Ok (t : list (ConversionRecord RawId)) :
  cell8_line87 to_double t = Ok (store_record to_double t <$> t).
Proof.
  unfold cell8_line87. rewrite to_numeric_column_Ok; simpl.
  by rewrite zip_with_set_ChEBI.
Qed.

Lemma dropna_stored (t u : list (ConversionRecord RawId)) :
  dropna (store_record to_double t <$> u)
  = store_record to_double t <$> filter (fun r => coerced to_double (ChEBI r) ≠ NaN) u.
Proof.
  unfold dropna. induction u as [|r u IH]; [done|].
  rewrite fmap_cons. destruct (decide (coerced to_double (ChEBI r) = NaN)) as [E|E].
  - rewrite !filter_cons_False; [done|tauto|]. simpl. intros H; apply H.
    by apply stored_NaN.
  - rewrite !filter_cons_True; [by rewrite fmap_cons, IH|done|].
    simpl. intros H; apply E. by apply (stored_NaN t).
Qed.

Lemma cell8_coerce_dropna_Ok (t : list (ConversionRecord RawId)) :
  cell8_coerce_dropna to_double t
  = Ok (store_record to_double t
          <$> filter (fun r => coerced to_double (ChEBI r) ≠ NaN) t).
Proof.
  unfold cell8_coerce_dropna. rewrite line87_Ok; simpl.
  by rewrite dropna_stored.
Qed.

Lemma dropna_no_NaN (t : list (ConversionRecord Numeric)) :
  Forall (fun r => ChEBI r ≠ NaN) (dropna t).
Proof. apply Forall_forall; intros r Hr. by apply list_elem_of_filter in Hr as [? _]. Qed.

Lemma astype_Int64_Ok (v : Numeric) (o : option Z) :
  astype_Int64 v = Ok o ->
  match v with
  | NaN => o = None
  | Whole z | Integer z => o = Some z /\ int64_min ≤ z ≤ int64_max
  | NotWhole => False
  | Infinite => False
  end.
Proof.
  destruct v as [|z| | |z]; simpl; [by intros [= <-]| |done..|];
    (case_bool_decide; [by intros [= <-]|done]).
Qed.

Lemma astype_Int64_completes (v : Numeric) :
  completes (astype_Int64 v) <-> castable v.
Proof.
  destruct v as [|z| | |z]; simpl; [done| |done..|]; by case_bool_decide.
Qed.


(** Line 90 completes exactly when every cell can be cast. *)
Lemma line90_completes (t : list (ConversionRecord Numeric)) :
  completes (assign_ChEBI astype_Int64 t) <-> Forall (fun r => castable (ChEBI r)) t.
Proof.
  unfold assign_ChEBI. induction t as [|r t IH]; simpl.
  - split; [constructor|done].
  - rewrite Forall_cons, <- IH, <- astype_Int64_completes.
    destruct (astype_Int64 (ChEBI r)); simpl; [|tauto].
    destruct (traverse _ t); simpl; tauto.
Qed.

Lemma line90_Ok (t : list (ConversionRecord Numeric)) (t' : list (ConversionRecord (option Z))) :
  assign_ChEBI astype_Int64 t = Ok t' ->
  Forall2 (fun r r' => kept_fields r r' /\ astype_Int64 (ChEBI r) = Ok (ChEBI r')) t t'.
Proof.
  intros Ht%traverse_Ok_inv. eapply Forall2_impl; [exact Ht|].
  intros r r'; simpl. destruct (astype_Int64 (ChEBI r)) as [o|e]; simpl; [|done].
  by intros [= <-].
Qed.

End Cell8Facts.

Lemma Forall2_and_Forall_l {A B} (P : A -> Prop) (R : A -> B -> Prop)
  (l : list A) (k : list B) :
  Forall P l -> Forall2 R l k -> Forall2 (fun x y => P x /\ R x y) l k.
Proof.
  intros HP HR; induction HR as [|x y l k Hxy _ IH]; [constructor|].
  apply Forall_cons in HP as [? ?]. constructor; auto.
Qed.

Section Cell8Results.
Variable to_double : string -> option Numeric.

(** What a completed run of the cell returns: one record for every input
    record whose identifier is not missing after coercion, in input order,
    with the whole number that line 87 stored for it. *)
Lemma cell8_normalise_Ok_inv (t : list (ConversionRecord RawId))
  (t' : list (ConversionRecord (option Z))) :
  cell8_normalise to_double t = Ok t' ->
  Forall2 (fun r r' =>
             kept_fields r r'
             /\ exists z, whole_value (stored to_double t (ChEBI r)) = Some z
                          /\ int64_min ≤ z ≤ int64_max
                          /\ ChEBI r' = Some z)
          (filter (fun r => coerced to_double (ChEBI r) ≠ NaN) t) t'.
Proof.
  unfold cell8_normalise. rewrite cell8_coerce_dropna_Ok; simpl.
  intros Ht%line90_Ok. apply Forall2_fmap_l in Ht.
  assert (Forall (fun r => coerced to_double (ChEBI r) ≠ NaN)
                 (filter (fun r => coerced to_double (ChEBI r) ≠ NaN) t)) as Hf.
  { apply Forall_forall; intros r Hr. by apply list_elem_of_filter in Hr as [? _]. }
  eapply Forall2_impl; [exact (Forall2_and_Forall_l _ _ _ _ Hf Ht)|].
  intros r r' (Hne & Hk & Hcast); split; [exact Hk|].
  apply astype_Int64_Ok in Hcast. simpl in Hcast.
  destruct (stored to_double t (ChEBI r)) as [|z| | |z] eqn:Es;
    [|by exists z; tauto|done..|by exists z; tauto].
  by apply stored_NaN in Es.
Qed.

End Cell8Results.

(** C2, as stated, fails: the identifiers ["0"] and ["-5"] are numbers,
    so they are neither coerced to null nor dropped, and survive as 0 and
    -5. *)
Lemma C2_nonpositive_ids_survive :
  exists t',
    cell8_normalise decimal_to_double raw_nonpositive = Ok t'
    /\ t' = [mkRecord "glucose" (Some 17234) "1";
             mkRecord "compound X" (Some 0) "1";
             mkRecord "compound Y" (Some (-5)) "1"]
    /\ ~ Forall (fun r => exists z, ChEBI r = Some z /\ 0 < z) t'.
Proof.
  eexists; split; [by vm_compute|]. split; [done|].
  intros H. apply Forall_cons in H as [_ H]. apply Forall_cons in H as [(z & [= <-] & Hz) _].
  lia.
Qed.

(** C2, amended: after a completed run of cell 8 every surviving record's
    identifier is a non-null integer within the 64-bit range, namely the
    whole number that line 87 stored for its raw cell: the integer the
    cell denotes when the column is an integer column, the [float64] read
    from the cell when one null, malformed or fractional cell or a float
    literal made the column [float64].  Zero and negative numbers are
    kept. *)
Theorem C2_normalise_integer_ids (to_double : string -> option Numeric)
  (t : list (ConversionRecord RawId)) (t' : list (ConversionRecord (option Z))) :
  cell8_normalise to_double t = Ok t' ->
  Forall (fun r' => exists z, ChEBI r' = Some z /\ int64_min ≤ z ≤ int64_max) t'
  /\ Forall2 (fun r r' => exists z, whole_value (stored to_double t (ChEBI r)) = Some z
                                     /\ ChEBI r' = Some z)
             (filter (fun r => coerced to_double (ChEBI r) ≠ NaN) t) t'.
Proof.
  intros Ht%cell8_normalise_Ok_inv. split.
  - induction Ht as [|r r' l k (_ & z & _ & Hz & Hr') _ IH]; constructor; [|done].
    by exists z.
  - eapply Forall2_impl; [exact Ht|].
    intros r r' (_ & z & Hc & _ & Hr'). by exists z.
Qed.

Lemma C2_normalise_integer_ids_witness :
  cell8_normalise decimal_to_double raw_scenario1
  = Ok [mkRecord "glucose" (Some 17234) "1"; mkRecord "lactate" (Some 422) "1"]
  /\ Forall (fun r' => exists z, ChEBI r' = Some z /\ int64_min ≤ z ≤ int64_max)
            [mkRecord "glucose" (Some 17234) "1"; mkRecord "lactate" (Some 422) "1"]
  /\ Forall2 (fun r r' => exists z, whole_value (stored decimal_to_double raw_scenario1 (ChEBI r)) = Some z
                                     /\ ChEBI r' = Some z)
             (filter (fun r => coerced decimal_to_double (ChEBI r) ≠ NaN) raw_scenario1)
             [mkRecord "glucose" (Some 17234) "1"; mkRecord "lactate" (Some 422) "1"].
Proof.
  assert (cell8_normalise decimal_to_double raw_scenario1
          = Ok [mkRecord "glucose" (Some 17234) "1"; mkRecord "lactate" (Some 422) "1"]) as Hrun
    by (vm_compute; reflexivity).
  split; [exact Hrun|].
  exact (C2_normalise_integer_ids decimal_to_double raw_scenario1 _ Hrun).
Defined.

(** With [errors='raise'] the same call would stop at a malformed cell. *)
Lemma to_numeric_raise_malformed (to_double : string -> option Numeric) (x : RawId) :
  malformed to_double x -> to_numeric to_double errors_raise x = Raised ValueError.
Proof. destruct x as [|v|s]; simpl; [done..|]. by intros ->. Qed.

(** C3, as stated, fails at line 90: ["1.5"] is a number, so it is not
    coerced to null, and the cast to [Int64] raises [TypeError]. *)
Lemma C3_fraction_raises :
  ~ malformed decimal_to_double (RawText "1.5")
  /\ cell8_normalise decimal_to_double raw_fraction = Raised TypeError
  /\ ~ completes (cell8_normalise decimal_to_double raw_fraction).
Proof. split; [by vm_compute|]. split; [by vm_compute|]. vm_compute; tauto. Qed.

(** C3, amended: no malformed identifier makes the cell raise.  For every
    table, line 87 completes and leaves null in every malformed cell,
    line 89 completes and removes exactly the records with a null
    identifier, and line 90 completes exactly when every surviving
    identifier, as line 87 stored it, is a whole number within the 64-bit
    range.  A fraction such as ["1.5"] raises, and so does an identifier
    that the [float64] column of line 87 rounds out of that range. *)
Theorem C3_malformed_never_raises (to_double : string -> option Numeric)
  (t : list (ConversionRecord RawId)) :
  exists t0 t1,
    cell8_line87 to_double t = Ok t0
    /\ Forall2 (fun r r0 => kept_fields r r0
                            /\ ChEBI r0 = stored to_double t (ChEBI r)
                            /\ (malformed to_double (ChEBI r) -> ChEBI r0 = NaN)) t t0
    /\ cell8_coerce_dropna to_double t = Ok t1
    /\ t1 = filter (fun r => ChEBI r ≠ NaN) t0
    /\ Forall (fun r => ChEBI r ≠ NaN) t1
    /\ (completes (cell8_normalise to_double t)
        <-> Forall (fun r => castable (ChEBI r)) t1).
Proof.
  exists (store_record to_double t <$> t), (dropna (store_record to_double t <$> t)).
  split; [apply line87_Ok|]. split; [|split; [|split; [done|split]]].
  - apply Forall2_fmap_r, Forall_Forall2_diag, Forall_forall; intros r _.
    split; [done|]. split; [done|]. apply malformed_stored.
  - unfold cell8_coerce_dropna. by rewrite line87_Ok.
  - apply dropna_no_NaN.
  - unfold cell8_normalise, cell8_coerce_dropna. rewrite line87_Ok; simpl.
    apply line90_completes.
Qed.

(** One null cell makes the column [float64]: an identifier above
    [2 ^ 53] is rounded, and one next to [2 ^ 63] is rounded out of range. *)
Example float64_column_rounds :
  cell8_normalise decimal_to_double
    [mkRecord "a" (RawText "9007199254740993") "1"; mkRecord "b" RawNull "0"]
  = Ok [mkRecord "a" (Some 9007199254740992) "1"]
  /\ cell8_normalise decimal_to_double
       [mkRecord "a" (RawText "9007199254740993") "1"]
     = Ok [mkRecord "a" (Some 9007199254740993) "1"]
  /\ cell8_normalise decimal_to_double
       [mkRecord "a" (RawText "9223372036854775807") "1"; mkRecord "b" RawNull "0"]
     = Raised TypeError
  /\ cell8_normalise decimal_to_double [mkRecord "a" (RawText "inf") "1"]
     = Raised OverflowError.
Proof. repeat split; by vm_compute. Qed.

(** A float literal makes the column [float64] as a null does; a column
    of integer literals that do not all fit [int64] is [uint64] when they
    are not negative, where the cast raises, and [float64] otherwise. *)
Example column_types :
  cell8_normalise decimal_to_double
    [mkRecord "a" (RawText "9007199254740993") "1"; mkRecord "b" (RawText "422.0") "1"]
  = Ok [mkRecord "a" (Some 9007199254740992) "1"; mkRecord "b" (Some 422) "1"]
  /\ cell8_line87 decimal_to_double
       [mkRecord "a" (RawText "18446744073709551615") "1"; mkRecord "b" (RawText "5") "1"]
     = Ok [mkRecord "a" (Integer 18446744073709551615) "1"; mkRecord "b" (Integer 5) "1"]
  /\ cell8_normalise decimal_to_double
       [mkRecord "a" (RawText "18446744073709551615") "1"; mkRecord "b" (RawText "5") "1"]
     = Raised TypeError
  /\ cell8_line87 decimal_to_double
       [mkRecord "a" (RawText "18446744073709551615") "1"; mkRecord "b" (RawText "-5") "1"]
     = Ok [mkRecord "a" (Whole 18446744073709551616) "1"; mkRecord "b" (Whole (-5)) "1"].
Proof. repeat split; by vm_compute. Qed.

(** Malformed text next to a resolved name: the cell completes and keeps
    the resolved record only. *)
Example malformed_ids_dropped :
  cell8_normalise decimal_to_double raw_malformed
  = Ok [mkRecord "glucose" (Some 17234) "1"].
Proof. by vm_compute. Qed.

(** C10: in a completed run of cell 8 the surviving records are the input
    records whose identifier is not null after coercion, in input order,
    each with its [Query] and [Comment] unchanged. *)
Theorem C10_normalise_frame (to_double : string -> option Numeric)
  (t : list (ConversionRecord RawId)) (t' : list (ConversionRecord (option Z))) :
  cell8_normalise to_double t = Ok t' ->
  Forall2 kept_fields (filter (fun r => coerced to_double (ChEBI r) ≠ NaN) t) t'
  /\ ((fun r => (Query r, Comment r)) <$> t')
     `sublist_of` ((fun r => (Query r, Comment r)) <$> t).
Proof.
  intros Ht%cell8_normalise_Ok_inv.
  assert (Forall2 kept_fields
            (filter (fun r => coerced to_double (ChEBI r) ≠ NaN) t) t') as Hk.
  { eapply Forall2_impl; [exact Ht|]. by intros r r' [? _]. }
  split; [exact Hk|].
  assert (((fun r => (Query r, Comment r)) <$> t')
          = ((fun r => (Query r, Comment r))
               <$> filter (fun r => coerced to_double (ChEBI r) ≠ NaN) t)) as ->.
  { clear Ht. induction Hk as [|r r' l k [Hq Hc] _ IH]; [done|].
    rewrite !fmap_cons, IH. by rewrite Hq, Hc. }
  apply fmap_sublist, sublist_filter.
Qed.

Lemma C10_normalise_frame_witness :
  cell8_normalise decimal_to_double raw_scenario1
  = Ok [mkRecord "glucose" (Some 17234) "1"; mkRecord "lactate" (Some 422) "1"]
  /\ Forall2 kept_fields
       (filter (fun r => coerced decimal_to_double (ChEBI r) ≠ NaN) raw_scenario1)
       [mkRecord "glucose" (Some 17234) "1"; mkRecord "lactate" (Some 422) "1"]
  /\ ((fun r => (Query r, Comment r))
        <$> [mkRecord "glucose" (Some 17234) "1"; mkRecord "lactate" (Some 422) "1"])
     `sublist_of` ((fun r => (Query r, Comment r)) <$> raw_scenario1).
Proof.
  assert (cell8_normalise decimal_to_double raw_scenario1
          = Ok [mkRecord "glucose" (Some 17234) "1"; mkRecord "lactate" (Some 422) "1"]) as Hrun
    by (vm_compute; reflexivity).
  split; [exact Hrun|].
  exact (C10_normalise_frame decimal_to_double raw_scenario1 _ Hrun).
Defined.

(** ** Cell 10 *)

#[global] Instance Chebi_inj : Inj (=) (=) Chebi.
Proof. by intros i j [= ->]. Qed.

Section Cell10Facts.
Context {L V : Type}.
Implicit Types (T : list (ConversionRecord (option Z))) (M : DataFrame.t L ColKey V).

Lemma elem_of_entries T (e : string * Z) :
  e ∈ entries T <-> exists r, r ∈ T /\ Query r = e.1 /\ ChEBI r = Some e.2.
Proof.
  unfold entries. rewrite list_elem_of_omap. split.
  - intros (r & Hr & Hre). exists r. split; [done|].
    destruct (ChEBI r) as [k|]; simpl in Hre; [|done]. by injection Hre as <-.
  - intros (r & Hr & Hq & Hc). exists r. split; [done|].
    rewrite Hc; simpl. destruct e; simpl in *. by subst.
Qed.


(** A resolved identifier is an identifier of the table: for a compound
    name, that of a record with the name as its query. *)
Lemma resolve_Some T (c : ColKey) (i : Z) :
  resolve T c = Some i ->
  i ∈ (entries T).*2
  /\ match c with
     | Name s => exists r, r ∈ T /\ Query r = s /\ ChEBI r = Some i
     | Chebi j => j = i
     end.
Proof.
  destruct c as [s|j]; simpl.
  - intros (e & Hl & ->)%fmap_Some. apply last_Some_elem_of in Hl.
    apply list_elem_of_filter in Hl as [<- He]. split.
    + apply list_elem_of_fmap. by exists e.
    + by apply elem_of_entries.
  - case_decide; [|done]. by intros [= <-].
Qed.

Lemma keep_first_ids (seen : list Z) (ts : list (option Z)) :
  NoDup (omap id (keep_first seen ts))
  /\ forall i, i ∈ omap id (keep_first seen ts) -> (i ∉ seen) /\ (Some i ∈ ts).
Proof.
  revert seen; induction ts as [|[i|] ts IH]; intros seen; simpl.
  - split; [constructor|]. by intros i ?%elem_of_nil.
  - destruct (decide (i ∈ seen)) as [Hin|Hout]; simpl.
    + destruct (IH seen) as [Hnd Hel]. split; [done|].
      intros j Hj. destruct (Hel j Hj). split; [done|by right].
    + destruct (IH (i :: seen)) as [Hnd Hel]. split.
      * apply NoDup_cons. split; [|done]. intros Hi. destruct (Hel i Hi) as [Hn _].
        apply Hn. by left.
      * intros j [->|Hj]%elem_of_cons; [split; [done|by left]|].
        destruct (Hel j Hj) as [Hn ?]. split; [|by right].
        intros ?. apply Hn. by right.
  - destruct (IH seen) as [Hnd Hel]. split; [done|].
    intros j Hj. destruct (Hel j Hj). split; [done|by right].
Qed.

(** Without a collision the merge policy changes nothing. *)
Lemma keep_first_id (seen : list Z) (ts : list (option Z)) :
  NoDup (omap id ts) -> (forall i, i ∈ omap id ts -> i ∉ seen) ->
  keep_first seen ts = ts.
Proof.
  revert seen; induction ts as [|[i|] ts IH]; intros seen Hnd Hs; simpl in *; [done| |].
  - apply NoDup_cons in Hnd as [Hi Hnd].
    rewrite decide_False by (apply Hs; by left). f_equal. apply IH; [done|].
    intros j Hj [->|?]%elem_of_cons; [done|]. apply (Hs j); [by right|done].
  - f_equal. by apply IH.
Qed.



End Cell10Facts.

Section Cell10Cells.
Context {L V : Type}.
Implicit Types (T : list (ConversionRecord (option Z))) (M : DataFrame.t L ColKey V).


Lemma length_select_le (ts : list (option Z)) (cells : list V) :
  (length (select ((fun o => bool_decide (is_Some o)) <$> ts) cells)
   <= length (omap id ts))%nat.
Proof.
  revert cells; induction ts as [|[i|] ts IH]; intros [|v cells];
    try (pose proof (IH cells) as IH'); simpl in *; try lia; try done.
  apply le_n_S, IH'.
Qed.

Lemma select_all (ids : list Z) (cells : list V) :
  (length cells <= length ids)%nat ->
  select ((fun o => bool_decide (is_Some o)) <$> (Some <$> ids)) cells = cells.
Proof.
  revert cells; induction ids as [|i ids IH]; intros [|v cells] Hlen; simpl in *;
    [done|lia|done|].
  f_equal. apply IH. lia.
Qed.

Lemma omap_id_Some (ids : list Z) : omap id (Some <$> ids) = ids.
Proof. induction ids as [|i ids IH]; [done|]. simpl. f_equal. apply IH. Qed.

(** The second pass resolves every column of the first to itself. *)
Lemma resolve_reannotated T (cols : list ColKey) :
  let ids := omap id (keep_first [] (resolve T <$> cols)) in
  keep_first [] (resolve T <$> (Chebi <$> ids)) = Some <$> ids.
Proof.
  intros ids. destruct (keep_first_ids [] (resolve T <$> cols)) as [Hnd Hel].
  fold ids in Hnd, Hel.
  assert (resolve T <$> (Chebi <$> ids) = Some <$> ids) as ->.
  { rewrite <- list_fmap_compose. apply list_fmap_ext. intros k i Hi; simpl.
    apply list_elem_of_lookup_2, Hel in Hi as [_ Hi].
    apply list_elem_of_fmap in Hi as (c & Hc & _). symmetry in Hc.
    apply resolve_Some in Hc as [Hin _]. by rewrite decide_True. }
  apply keep_first_id; rewrite omap_id_Some; [done|].
  intros i _. apply not_elem_of_nil.
Qed.






(** Re-annotating a re-annotated matrix changes nothing. *)
Lemma map_identifiers_twice T M :
  map_identifiers T (map_identifiers T M) = map_identifiers T M.
Proof.
  unfold map_identifiers at 1 3; simpl.
  rewrite resolve_reannotated, omap_id_Some. f_equal.
  rewrite <- list_fmap_compose. apply list_fmap_ext. intros k r _; simpl. f_equal.
  apply select_all, length_select_le.
Qed.

End Cell10Cells.


(** A table in which two names carry one identifier, and a matrix whose
    unmapped column stands between mapped ones: the first column of the
    identifier is kept, the unmapped column and the second are dropped. *)
Example reannotate_collision :
  map_identifiers
    [mkRecord "glucose" (Some 17234) "1"; mkRecord "lactate" (Some 422) "1";
     mkRecord "dextrose" (Some 17234) "1"]
    (DataFrame.mk [Name "glucose"; Name "unknownXYZ"; Name "dextrose"; Name "lactate"]
                  [("S1", [10; 30; 40; 20]); ("S2", [11; 31; 41; 21])])
  = DataFrame.mk [Chebi 17234; Chebi 422] [("S1", [10; 20]); ("S2", [11; 21])].
Proof. by vm_compute. Qed.

(** C7 (section 8; line 106).  Re-annotation is idempotent: for every
    matrix and every conversion table, re-annotating the re-annotated
    matrix with the same table returns it unchanged. *)
Theorem C7_reannotate_idempotent :
  forall (L V : Type) (T : list (ConversionRecord (option Z)))
         (M : DataFrame.t L ColKey V),
    map_identifiers T (map_identifiers T M) = map_identifiers T M.
Proof. intros L V T M. apply map_identifiers_twice. Qed.

(** ** Cell 40 *)

Section Cell40Facts.
Context {L V : Type}.
Implicit Types (db : gmap string Pathway) (M : DataFrame.t L ColKey V) (k : Z).

Lemma coverage_filter_Ok db M k :
  1 ≤ k ->
  coverage_filter db M k
  = Ok (filter (fun kv => k ≤ coverage (dataset_ids M) kv.2) db).
Proof. intros Hk. unfold coverage_filter. by rewrite bool_decide_eq_false_2 by lia. Qed.

Lemma coverage_le_members (ids : gset Z) (P : Pathway) :
  coverage ids P ≤ Z.of_nat (size (members P)).
Proof.
  unfold coverage. apply inj_le, subseteq_size, intersection_subseteq_l.
Qed.

Lemma coverage_positive (ids : gset Z) (P : Pathway) :
  1 ≤ coverage ids P <-> members P ∩ ids ≠ ∅.
Proof.
  unfold coverage. split.
  - intros Hs Hempty. rewrite Hempty, size_empty in Hs. lia.
  - intros Hne. destruct (decide (size (members P ∩ ids) = 0%nat)) as [E|E]; [|lia].
    apply size_empty_iff, leibniz_equiv in E. done.
Qed.

(** The literal of the notebook passes the guard. *)
Lemma cell40_min_coverage_accepted db M :
  completes (coverage_filter db M cell40_min_coverage).
Proof. by rewrite coverage_filter_Ok by (unfold cell40_min_coverage; lia). Qed.

End Cell40Facts.

(** C5: for a minimum coverage [k >= 1] the filter raises nothing and
    returns exactly the pathways with at least [k] members among the
    matrix columns; for [k = 1] these are the pathways that share a member
    with the matrix; when [k] exceeds the size of every pathway the result
    is the empty database. *)
Theorem C5_coverage_filter {L V} (db : gmap string Pathway)
  (M : DataFrame.t L ColKey V) (k : Z) :
  1 ≤ k ->
  exists out : gmap string Pathway,
    coverage_filter db M k = Ok out
    /\ (forall pid P, out !! pid = Some P
          <-> db !! pid = Some P
              /\ k ≤ Z.of_nat (size (members P ∩ dataset_ids M)))
    /\ (k = 1 ->
        forall pid P, out !! pid = Some P
          <-> db !! pid = Some P /\ members P ∩ dataset_ids M ≠ ∅)
    /\ ((forall pid P, db !! pid = Some P -> Z.of_nat (size (members P)) < k) ->
        out = ∅).
Proof.
  intros Hk. eexists. split; [by apply coverage_filter_Ok|].
  split; [|split].
  - intros pid P. by rewrite map_lookup_filter_Some.
  - intros -> pid P. rewrite map_lookup_filter_Some; simpl.
    by rewrite coverage_positive.
  - intros Hsmall. apply map_empty; intros pid.
    destruct (filter _ db !! pid) as [P|] eqn:E; [|done].
    apply map_lookup_filter_Some in E as [Hdb Hcov]; simpl in Hcov.
    pose proof (coverage_le_members (dataset_ids M) P).
    pose proof (Hsmall pid P Hdb). lia.
Qed.

(** Scenario 2: with [k = 2] pathway P1 (coverage 2) is kept and P2
    (coverage 1) is dropped. *)
Example scenario2_coverage :
  coverage_filter s2_pathways s2_matrix 2 = Ok {["P1" := s2_P1]}.
Proof. by vm_compute. Qed.

Lemma C5_coverage_filter_witness :
  1 ≤ 2
  /\ exists out : gmap string Pathway,
       coverage_filter s2_pathways s2_matrix 2 = Ok out
       /\ (forall pid P, out !! pid = Some P
             <-> s2_pathways !! pid = Some P
                 /\ 2 ≤ Z.of_nat (size (members P ∩ dataset_ids s2_matrix)))
       /\ (2 = 1 ->
           forall pid P, out !! pid = Some P
             <-> s2_pathways !! pid = Some P /\ members P ∩ dataset_ids s2_matrix ≠ ∅)
       /\ ((forall pid P, s2_pathways !! pid = Some P -> Z.of_nat (size (members P)) < 2) ->
           out = ∅).
Proof.
  assert (1 ≤ 2) as Hk by lia.
  split; [exact Hk|exact (C5_coverage_filter s2_pathways s2_matrix 2 Hk)].
Defined.

(** C8: every minimum coverage [k <= 0] is rejected: the filter raises and
    returns no database, whatever the pathway database and the matrix. *)
Theorem C8_nonpositive_coverage_rejected {L V} (db : gmap string Pathway)
  (M : DataFrame.t L ColKey V) (k : Z) :
  k ≤ 0 ->
  coverage_filter db M k = Raised ValueError
  /\ ~ completes (coverage_filter db M k).
Proof.
  intros Hk. unfold coverage_filter. rewrite bool_decide_eq_true_2 by done.
  split; [done|]. simpl; tauto.
Qed.

Lemma C8_nonpositive_coverage_rejected_witness :
  0 ≤ 0
  /\ coverage_filter s2_pathways s2_matrix 0 = Raised ValueError
  /\ ~ completes (coverage_filter s2_pathways s2_matrix 0).
Proof.
  assert (0 ≤ 0) as Hk by lia.
  split; [exact Hk|exact (C8_nonpositive_coverage_rejected s2_pathways s2_matrix 0 Hk)].
Defined.

(** * Further properties of the cells *)

Lemma filter_all {A} (P : A -> Prop) `{forall x, Decision (P x)} (l : list A) :
  Forall P l -> filter P l = l.
Proof.
  induction 1 as [|x l Hx _ IH]; [done|].
  by rewrite filter_cons_True, IH.
Qed.

(** ** Cell 35 beyond unique labels *)

Section Cell35More.
Context {L C V : Type} `{EqDecision L}.
Implicit Types (prot metab : DataFrame.t L C V).

Lemma elem_of_selected_rows (df : DataFrame.t L C V) (key : list L) (r : L * list V) :
  r ∈ concat (DataFrame.rows_at df <$> key) <-> r ∈ DataFrame.rows df /\ r.1 ∈ key.
Proof.
  rewrite elem_of_concat. split.
  - intros (k & Hr & (l & -> & Hl)%list_elem_of_fmap).
    apply list_elem_of_filter in Hr as [<- Hr]. by split.
  - intros [Hr Hl]. exists (DataFrame.rows_at df r.1). split.
    + apply list_elem_of_filter; by split.
    + apply list_elem_of_fmap. by exists r.1.
Qed.

Lemma elem_of_index (df : DataFrame.t L C V) (r : L * list V) :
  r ∈ DataFrame.rows df -> r.1 ∈ DataFrame.index df.
Proof. intros Hr. apply list_elem_of_fmap. by exists r. Qed.

(** Selecting a frame with unique labels by its own index returns its rows. *)
Lemma select_own_index (rs : list (L * list V)) :
  NoDup rs.*1 ->
  concat ((fun l => filter (fun r => r.1 = l) rs) <$> rs.*1) = rs.
Proof.
  intros Hnd.
  pose proof (select_filtered_index (fun _ : L => True) rs Hnd) as Hsel.
  rewrite !filter_all in Hsel by (by apply Forall_forall).
  exact Hsel.
Qed.

Lemma unique_from_NoDup (seen l : list L) : NoDup (unique_from seen l).
Proof.
  revert seen; induction l as [|x l IH]; intros seen; simpl; [constructor|].
  case_decide; [apply IH|]. constructor; [|apply IH].
  rewrite elem_of_unique_from. intros [_ Hx]. apply Hx. by left.
Qed.

(** [Index.intersection] lists no label twice, whatever the operands. *)
Lemma Index_intersection_distinct (self other : list L) :
  NoDup (Index_intersection self other).
Proof. apply NoDup_filter, unique_from_NoDup. Qed.

Lemma filter_split_label (rs : list (L * list V)) (k : L) (key : list L) :
  k ∉ key ->
  filter (fun r => r.1 ∈ k :: key) rs
  ≡ₚ filter (fun r => r.1 = k) rs ++ filter (fun r => r.1 ∈ key) rs.
Proof.
  intros Hk; induction rs as [|r rs IH]; [done|].
  rewrite !filter_cons.
  destruct (decide (r.1 = k)) as [Heq|Hne], (decide (r.1 ∈ key)) as [Hin|Hout].
  - exfalso. apply Hk. by rewrite <- Heq.
  - rewrite decide_True by (rewrite Heq; by left). simpl. by rewrite IH.
  - rewrite decide_True by (by right). rewrite IH. apply Permutation_middle.
  - rewrite decide_False; [done|]. by intros [?|?]%elem_of_cons.
Qed.

(** Selecting by distinct labels permutes the rows that carry them, also
    when labels repeat in the frame. *)
Lemma selected_rows_Permutation (rs : list (L * list V)) (key : list L) :
  NoDup key ->
  concat ((fun l => filter (fun r => r.1 = l) rs) <$> key)
  ≡ₚ filter (fun r => r.1 ∈ key) rs.
Proof.
  induction 1 as [|k key Hk _ IH]; simpl.
  - symmetry. apply Permutation_nil_r.
    induction rs as [|r rs IHr]; [done|].
    rewrite filter_cons_False; [done|apply not_elem_of_nil].
  - rewrite IH. symmetry. by apply filter_split_label.
Qed.

Lemma selected_rows_other_label (rs : list (L * list V)) (key : list L) (l : L) :
  l ∉ key ->
  filter (fun r => r.1 = l)
         (concat ((fun k => filter (fun r => r.1 = k) rs) <$> key)) = [].
Proof.
  intros Hl. apply filter_label_not_in.
  intros (r & -> & Hr)%list_elem_of_fmap.
  apply elem_of_concat in Hr as (g & Hr & (k & -> & Hk)%list_elem_of_fmap).
  apply list_elem_of_filter in Hr as [Heq _]. apply Hl. by rewrite Heq.
Qed.

Lemma filter_label_twice (rs : list (L * list V)) (k l : L) :
  filter (fun r => r.1 = l) (filter (fun r => r.1 = k) rs)
  = if decide (k = l) then filter (fun r => r.1 = l) rs else [].
Proof.
  induction rs as [|r rs IH]; [by case_decide|].
  rewrite (filter_cons (fun r => r.1 = k)).
  destruct (decide (r.1 = k)) as [Hk|Hk].
  - rewrite !filter_cons, IH. destruct (decide (k = l)) as [<-|Hne].
    + by rewrite !decide_True.
    + rewrite decide_False; [done|]. intros ?. apply Hne. congruence.
  - rewrite IH. destruct (decide (k = l)) as [<-|Hne]; [|done].
    by rewrite filter_cons_False.
Qed.

(** The rows of one selected label keep the order they had. *)
Lemma selected_rows_at (rs : list (L * list V)) (key : list L) (l : L) :
  NoDup key -> l ∈ key ->
  filter (fun r => r.1 = l)
         (concat ((fun k => filter (fun r => r.1 = k) rs) <$> key))
  = filter (fun r => r.1 = l) rs.
Proof.
  induction 1 as [|k key Hk Hnd IH]; [by intros ?%elem_of_nil|].
  intros Hl. simpl. rewrite filter_app, filter_label_twice.
  destruct (decide (k = l)) as [<-|Hne].
  - rewrite selected_rows_other_label by done. apply app_nil_r.
  - apply elem_of_cons in Hl as [?|Hl]; [done|]. simpl. by apply IH.
Qed.

Lemma filter_common_labels (rs : list (L * list V)) (self other : list L) :
  Forall (fun r => r.1 ∈ self) rs ->
  filter (fun r => r.1 ∈ Index_intersection self other) rs
  = filter (fun r => r.1 ∈ other) rs
  /\ filter (fun r => r.1 ∈ Index_intersection other self) rs
     = filter (fun r => r.1 ∈ other) rs.
Proof.
  induction 1 as [|r rs Hr _ [IH1 IH2]]; [done|].
  rewrite !filter_cons, IH1, IH2.
  destruct (decide (r.1 ∈ other)) as [Hin|Hout].
  - by rewrite !decide_True by (by apply elem_of_Index_intersection).
  - rewrite !decide_False; [done| |]; by intros [? ?]%elem_of_Index_intersection.
Qed.

Lemma index_labels (df : DataFrame.t L C V) :
  Forall (fun r => r.1 ∈ DataFrame.index df) (DataFrame.rows df).
Proof. apply Forall_forall. intros r Hr. by apply elem_of_index. Qed.

Lemma unique_from_seen_app (seen l1 l2 : list L) :
  Forall (fun x => x ∈ seen) l1 ->
  unique_from seen (l1 ++ l2) = unique_from seen l2.
Proof. induction 1 as [|x l1 Hx _ IH]; [done|]. simpl. by rewrite decide_True. Qed.

Lemma unique_from_groups (seen : list L) (key : list L) (gs : list (list L)) :
  NoDup key -> (forall k, k ∈ key -> k ∉ seen) ->
  Forall2 (fun k g => g <> [] /\ Forall (eq k) g) key gs ->
  unique_from seen (concat gs) = key.
Proof.
  intros Hnd Hs Hg; revert seen Hnd Hs.
  induction Hg as [|k g key gs [Hne Hk] _ IH]; intros seen Hnd Hs; [done|].
  apply NoDup_cons in Hnd as [Hk' Hnd].
  destruct g as [|x g]; [done|]. apply Forall_cons in Hk as [<- Hk].
  simpl. rewrite decide_False by (apply Hs; by left). f_equal.
  rewrite unique_from_seen_app.
  - apply IH; [done|]. intros j Hj [->|?]%elem_of_cons; [done|].
    apply (Hs j); [by right|done].
  - eapply Forall_impl; [exact Hk|]. intros ? <-. by left.
Qed.

(** The label groups of a selection come in key order. *)
Lemma selected_rows_groups (rs : list (L * list V)) (key : list L) :
  NoDup key -> Forall (fun l => l ∈ rs.*1) key ->
  Index_unique (concat ((fun l => filter (fun r => r.1 = l) rs) <$> key)).*1 = key.
Proof.
  intros Hnd Hin. unfold Index_unique.
  assert (forall ls : list (list (L * list V)),
            (concat ls).*1 = concat ((fun g : list (L * list V) => g.*1) <$> ls)) as ->.
  { induction ls as [|g ls IH]; [done|]. simpl. by rewrite fmap_app, IH. }
  apply unique_from_groups; [done|intros; apply not_elem_of_nil|].
  rewrite <- list_fmap_compose. apply Forall2_fmap_r, Forall_Forall2_diag.
  eapply Forall_impl; [exact Hin|]. intros l Hl; simpl. split.
  - intros Hnil%fmap_nil_inv. revert Hnil.
    apply (rows_at_nonempty (DataFrame.mk (@nil C) rs)). exact Hl.
  - apply Forall_fmap, Forall_forall. by intros r [Hr _]%list_elem_of_filter.
Qed.

End Cell35More.

(** X1: cell 35 never raises, also when sample labels repeat, and it
    neither invents, loses nor repeats a row: the rows of the first result
    are a permutation of the rows of [prot] whose label occurs in [metab],
    those of the second a permutation of the rows of [metab] whose label
    occurs in [prot], with multiplicity; the rows of one label keep the
    order they had; both results list the labels in the order of their
    first occurrence in [prot]; the columns are kept. *)
Theorem align_keeps_exactly_common_rows {L C V} `{EqDecision L}
  (prot metab : DataFrame.t L C V) :
  exists prot' metab',
    cell35_align prot metab = Ok (prot', metab')
    /\ DataFrame.columns prot' = DataFrame.columns prot
    /\ DataFrame.columns metab' = DataFrame.columns metab
    /\ DataFrame.rows prot'
       ≡ₚ filter (fun r => r.1 ∈ DataFrame.index metab) (DataFrame.rows prot)
    /\ DataFrame.rows metab'
       ≡ₚ filter (fun r => r.1 ∈ DataFrame.index prot) (DataFrame.rows metab)
    /\ (forall l, l ∈ DataFrame.index prot -> l ∈ DataFrame.index metab ->
          DataFrame.rows_at prot' l = DataFrame.rows_at prot l
          /\ DataFrame.rows_at metab' l = DataFrame.rows_at metab l)
    /\ Index_unique (DataFrame.index prot')
       = Index_intersection (DataFrame.index prot) (DataFrame.index metab)
    /\ Index_unique (DataFrame.index metab')
       = Index_intersection (DataFrame.index prot) (DataFrame.index metab).
Proof.
  eexists _, _. split; [apply cell35_align_Ok|]. simpl.
  pose proof (Index_intersection_distinct (DataFrame.index prot) (DataFrame.index metab))
    as Hnd.
  split; [done|]. split; [done|]. split; [|split; [|split; [|split]]].
  - unfold DataFrame.rows_at. rewrite selected_rows_Permutation by done.
    by rewrite (proj1 (filter_common_labels _ _ _ (index_labels prot))).
  - unfold DataFrame.rows_at. rewrite selected_rows_Permutation by done.
    by rewrite (proj2 (filter_common_labels _ _ _ (index_labels metab))).
  - intros l Hp Hm. unfold DataFrame.rows_at; simpl.
    assert (l ∈ Index_intersection (DataFrame.index prot) (DataFrame.index metab))
      as Hl by (by apply elem_of_Index_intersection).
    split; by apply selected_rows_at.
  - rewrite index_mk. apply (selected_rows_groups (C:=C)); [done|].
    apply Forall_forall. by intros l [? _]%elem_of_Index_intersection.
  - rewrite index_mk. apply (selected_rows_groups (C:=C)); [done|].
    apply Forall_forall. by intros l [_ ?]%elem_of_Index_intersection.
Qed.

(** X2: running cell 35 again on its own results changes nothing, for
    frames with unique sample labels. *)
Theorem align_rerun_unchanged {L C V} `{EqDecision L}
  (prot metab prot' metab' : DataFrame.t L C V) :
  NoDup (DataFrame.index prot) ->
  NoDup (DataFrame.index metab) ->
  cell35_align prot metab = Ok (prot', metab') ->
  cell35_align prot' metab' = Ok (prot', metab').
Proof.
  intros Hp Hm. rewrite cell35_align_Ok. intros [= <- <-].
  set (common := Index_intersection (DataFrame.index prot) (DataFrame.index metab)).
  assert (NoDup common) as Hc
    by (unfold common; rewrite Index_intersection_NoDup by done; by apply NoDup_filter).
  assert ((concat (DataFrame.rows_at metab <$> common)).*1 = common) as Him
    by apply (align_index_metab prot metab Hm).
  assert ((concat (DataFrame.rows_at prot <$> common)).*1 = common) as Hip.
  { unfold common at 1. rewrite (align_rows_prot prot metab Hp).
    rewrite (fmap_fst_filter (fun l => l ∈ DataFrame.index metab)).
    unfold common. by rewrite Index_intersection_NoDup. }
  set (rp := concat (DataFrame.rows_at prot <$> common)) in *.
  set (rm := concat (DataFrame.rows_at metab <$> common)) in *.
  rewrite cell35_align_Ok, !index_mk, Him, Hip.
  assert (Index_intersection common common = common) as ->.
  { rewrite Index_intersection_NoDup by done.
    apply filter_all, Forall_forall; auto. }
  unfold DataFrame.rows_at; simpl.
  assert (forall rs : list (L * list V), rs.*1 = common ->
            concat ((fun l => filter (fun r => r.1 = l) rs) <$> common) = rs) as Hown.
  { intros rs <-. by apply select_own_index. }
  by rewrite !Hown.
Qed.

Lemma align_rerun_unchanged_witness :
  NoDup (DataFrame.index s3_prot)
  /\ NoDup (DataFrame.index s3_metab)
  /\ cell35_align s3_prot s3_metab = Ok (s3_prot_aligned, s3_metab_aligned)
  /\ cell35_align s3_prot_aligned s3_metab_aligned
     = Ok (s3_prot_aligned, s3_metab_aligned).
Proof.
  assert (NoDup (DataFrame.index s3_prot)) as Hp
    by (apply (bool_decide_unpack _); vm_compute; exact I).
  assert (NoDup (DataFrame.index s3_metab)) as Hm
    by (apply (bool_decide_unpack _); vm_compute; exact I).
  assert (cell35_align s3_prot s3_metab = Ok (s3_prot_aligned, s3_metab_aligned)) as Hrun
    by (vm_compute; reflexivity).
  split; [exact Hp|]. split; [exact Hm|]. split; [exact Hrun|].
  exact (align_rerun_unchanged s3_prot s3_metab _ _ Hp Hm Hrun).
Defined.

(** X3: which frame comes first decides only the row order.  For frames
    with unique sample labels, aligning [prot] with [metab] and aligning
    [metab] with [prot] return the same rows of each frame, up to order. *)
Theorem align_argument_order {L C V} `{EqDecision L}
  (prot metab prot1 metab1 metab2 prot2 : DataFrame.t L C V) :
  NoDup (DataFrame.index prot) ->
  NoDup (DataFrame.index metab) ->
  cell35_align prot metab = Ok (prot1, metab1) ->
  cell35_align metab prot = Ok (metab2, prot2) ->
  DataFrame.rows prot1 ≡ₚ DataFrame.rows prot2
  /\ DataFrame.rows metab1 ≡ₚ DataFrame.rows metab2
  /\ DataFrame.index prot1 ≡ₚ DataFrame.index metab2.
Proof.
  intros Hp Hm. rewrite !cell35_align_Ok. intros [= <- <-] [= <- <-].
  rewrite !index_mk; simpl.
  pose proof (align_rows_prot prot metab Hp) as Hp1.
  pose proof (align_rows_metab metab prot Hm Hp) as Hp2.
  pose proof (align_rows_prot metab prot Hm) as Hm2.
  pose proof (align_rows_metab prot metab Hp Hm) as Hm1.
  split; [by rewrite Hp1, Hp2|]. split; [by rewrite Hm1, Hm2|].
  rewrite Hp1, Hm2.
  rewrite (fmap_fst_filter (fun l => l ∈ DataFrame.index metab)).
  rewrite (fmap_fst_filter (fun l => l ∈ DataFrame.index prot)).
  apply NoDup_Permutation; [by apply NoDup_filter..|].
  intros l. rewrite !list_elem_of_filter. tauto.
Qed.

Lemma align_argument_order_witness :
  NoDup (DataFrame.index swapped_prot)
  /\ NoDup (DataFrame.index swapped_metab)
  /\ exists prot1 metab1 metab2 prot2,
       cell35_align swapped_prot swapped_metab = Ok (prot1, metab1)
       /\ cell35_align swapped_metab swapped_prot = Ok (metab2, prot2)
       /\ DataFrame.rows prot1 ≡ₚ DataFrame.rows prot2
       /\ DataFrame.rows metab1 ≡ₚ DataFrame.rows metab2
       /\ DataFrame.index prot1 ≡ₚ DataFrame.index metab2.
Proof.
  assert (NoDup (DataFrame.index swapped_prot)) as Hp
    by (apply (bool_decide_unpack _); vm_compute; exact I).
  assert (NoDup (DataFrame.index swapped_metab)) as Hm
    by (apply (bool_decide_unpack _); vm_compute; exact I).
  split; [exact Hp|]. split; [exact Hm|].
  eexists _, _, _, _.
  split; [vm_compute; reflexivity|]. split; [vm_compute; reflexivity|].
  refine (align_argument_order swapped_prot swapped_metab _ _ _ _ Hp Hm _ _);
    vm_compute; reflexivity.
Defined.

(** ** Cell 8 run twice *)

Lemma cell8_on_reread (to_double : string -> option Numeric)
  (t' : list (ConversionRecord (option Z))) :
  Forall (fun r => exists z, ChEBI r = Some z /\ int64_min ≤ z ≤ int64_max) t' ->
  cell8_normalise to_double ((fun r => set_ChEBI r (reread (ChEBI r))) <$> t') = Ok t'.
Proof.
  intros Ht.
  set (u := (fun r => set_ChEBI r (reread (ChEBI r))) <$> t').
  assert (exact_column (coerced to_double <$> (ChEBI <$> u)) = true) as Hint.
  { unfold exact_column. apply orb_true_intro; left. unfold u. clear u.
    induction Ht as [|[q o c] t' (z & Hz & Hrange) _ IH]; [done|].
    simpl in Hz; subst o. rewrite !fmap_cons; simpl.
    by rewrite bool_decide_eq_true_2, IH. }
  assert (forall x, stored to_double u x = coerced to_double x) as Hst
    by (intros x; unfold stored; by rewrite Hint).
  unfold cell8_normalise. rewrite cell8_coerce_dropna_Ok; simpl.
  rewrite (list_fmap_ext (store_record to_double u)
             (fun r => set_ChEBI r (coerced to_double (ChEBI r))))
    by (intros i r _; unfold store_record; by rewrite Hst).
  unfold u. clear Hint Hst u.
  rewrite filter_all.
  2:{ apply Forall_fmap, Forall_forall; intros r Hr.
      rewrite Forall_forall in Ht. destruct (Ht r Hr) as (z & Hz & _).
      simpl. by rewrite Hz. }
  unfold assign_ChEBI. rewrite <- !list_fmap_compose.
  induction Ht as [|[q o c] t' (z & Hz & Hrange) _ IH]; [done|].
  simpl in Hz; subst o. rewrite fmap_cons; simpl.
  rewrite bool_decide_eq_true_2 by done; simpl.
  by rewrite IH.
Qed.

(** X4: running cell 8 again on the table it produced returns the same
    table: every identifier is already a whole number, nothing is dropped
    and nothing raises. *)
Theorem cell8_rerun_unchanged (to_double : string -> option Numeric)
  (t : list (ConversionRecord RawId)) (t' : list (ConversionRecord (option Z))) :
  cell8_normalise to_double t = Ok t' ->
  cell8_normalise to_double ((fun r => set_ChEBI r (reread (ChEBI r))) <$> t') = Ok t'.
Proof.
  intros Ht%cell8_normalise_Ok_inv. apply cell8_on_reread.
  induction Ht as [|r r' l k (_ & z & _ & Hz & Hr') _ IH]; constructor; [|done].
  by exists z.
Qed.

Lemma cell8_rerun_unchanged_witness :
  cell8_normalise decimal_to_double raw_scenario1
  = Ok [mkRecord "glucose" (Some 17234) "1"; mkRecord "lactate" (Some 422) "1"]
  /\ cell8_normalise decimal_to_double
       ((fun r => set_ChEBI r (reread (ChEBI r)))
          <$> [mkRecord "glucose" (Some 17234) "1"; mkRecord "lactate" (Some 422) "1"])
     = Ok [mkRecord "glucose" (Some 17234) "1"; mkRecord "lactate" (Some 422) "1"].
Proof.
  assert (cell8_normalise decimal_to_double raw_scenario1
          = Ok [mkRecord "glucose" (Some 17234) "1"; mkRecord "lactate" (Some 422) "1"]) as Hrun
    by (vm_compute; reflexivity).
  split; [exact Hrun|].
  exact (cell8_rerun_unchanged decimal_to_double raw_scenario1 _ Hrun).
Defined.

(** ** Cell 14 *)

(** X5: on the table cell 8 produced, the null test of line 146 removes
    nothing: [chebi_matches] holds the identifiers of the records with
    [Comment == "1"], one for every raw record with that comment and a
    non-null identifier, in table order, each the whole number that
    line 87 stored for that record. *)
Theorem chebi_matches_after_cell8 (to_double : string -> option Numeric)
  (t : list (ConversionRecord RawId)) (t' : list (ConversionRecord (option Z))) :
  cell8_normalise to_double t = Ok t' ->
  chebi_matches t' = ChEBI <$> filter (fun r => Comment r = "1") t'
  /\ Forall2 (fun r o => exists z, whole_value (stored to_double t (ChEBI r)) = Some z /\ o = Some z)
       (filter (fun r => Comment r = "1" /\ coerced to_double (ChEBI r) ≠ NaN) t)
       (chebi_matches t')
  /\ (length (chebi_matches t') <= length t')%nat.
Proof.
  intros Ht%cell8_normalise_Ok_inv.
  assert (chebi_matches t' = ChEBI <$> filter (fun r => Comment r = "1") t') as Hm.
  { unfold chebi_matches. f_equal. apply filter_iff_in. intros r' Hr'.
    split; [tauto|]. intros Hc; split; [done|].
    apply (Forall2_Forall_r _ (fun r' => ChEBI r' ≠ None)) in Ht.
    - rewrite Forall_forall in Ht. by apply Ht.
    - apply Forall_forall. intros r _ y (_ & z & _ & _ & ->). done. }
  split; [exact Hm|]. split.
  - rewrite Hm. apply Forall2_fmap_r.
    rewrite <- (list_filter_filter (fun r => Comment r = "1")
                  (fun r => coerced to_double (ChEBI r) ≠ NaN) t).
    eapply Forall2_impl.
    + apply (Forall2_filter _ (fun r => Comment r = "1")
               (fun r' : ConversionRecord (option Z) => Comment r' = "1")); [|exact Ht].
      intros r r' ((_ & Hc) & _); simpl. by rewrite Hc.
    + intros r r' (_ & z & Hz & _ & Hr'). by exists z.
  - rewrite Hm, length_fmap. apply length_filter.
Qed.

Lemma chebi_matches_after_cell8_witness :
  cell8_normalise decimal_to_double raw_scenario1
  = Ok [mkRecord "glucose" (Some 17234) "1"; mkRecord "lactate" (Some 422) "1"]
  /\ chebi_matches [mkRecord "glucose" (Some 17234) "1"; mkRecord "lactate" (Some 422) "1"]
     = ChEBI <$> filter (fun r => Comment r = "1")
                   [mkRecord "glucose" (Some 17234) "1"; mkRecord "lactate" (Some 422) "1"]
  /\ Forall2 (fun r o => exists z, whole_value (stored decimal_to_double raw_scenario1 (ChEBI r)) = Some z
                          /\ o = Some z)
       (filter (fun r => Comment r = "1" /\ coerced decimal_to_double (ChEBI r) ≠ NaN)
               raw_scenario1)
       (chebi_matches
          [mkRecord "glucose" (Some 17234) "1"; mkRecord "lactate" (Some 422) "1"])
  /\ Nat.le
       (length (chebi_matches
                  [mkRecord "glucose" (Some 17234) "1"; mkRecord "lactate" (Some 422) "1"]))
       (length [mkRecord "glucose" (Some 17234) "1"; mkRecord "lactate" (Some 422) "1"]).
Proof.
  assert (cell8_normalise decimal_to_double raw_scenario1
          = Ok [mkRecord "glucose" (Some 17234) "1"; mkRecord "lactate" (Some 422) "1"]) as Hrun
    by (vm_compute; reflexivity).
  split; [exact Hrun|].
  exact (chebi_matches_after_cell8 decimal_to_double raw_scenario1 _ Hrun).
Defined.

Lemma size_list_to_set_le {K} `{Countable K} (l : list K) :
  (size (list_to_set l : gset K) <= length l)%nat.
Proof.
  induction l as [|x l IH]; [by rewrite list_to_set_nil, size_empty|].
  rewrite list_to_set_cons, size_union_alt, size_singleton. simpl.
  assert (size (list_to_set l ∖ {[x]} : gset K) <= size (list_to_set l : gset K))%nat
    by (apply subseteq_size, subseteq_difference_l; done).
  lia.
Qed.

(** X6: a compound counted by line 154 is a column of the mapped matrix
    and a member of some pathway, and conversely; so the count is at most
    the number of columns and at most the number of pathway compounds. *)
Theorem mapped_annotated_cpds_spec {K} `{Countable K} (columns : list K)
  (pathway_dict : list (string * list K)) :
  (forall x, x ∈ mapped_annotated_cpds columns pathway_dict
     <-> x ∈ columns /\ exists pw, pw ∈ pathway_dict /\ x ∈ pw.2)
  /\ (size (mapped_annotated_cpds columns pathway_dict) <= length columns)%nat
  /\ (size (mapped_annotated_cpds columns pathway_dict)
      <= size (all_reactome_cpds pathway_dict))%nat.
Proof.
  unfold mapped_annotated_cpds, all_reactome_cpds. split; [|split].
  - intros x. rewrite elem_of_intersection, !elem_of_list_to_set, elem_of_concat.
    split.
    + intros [Hc (l & Hx & (pw & -> & Hpw)%list_elem_of_fmap)].
      split; [done|]. by exists pw.
    + intros [Hc (pw & Hpw & Hx)]. split; [done|].
      exists pw.2. split; [done|]. apply list_elem_of_fmap. by exists pw.
  - etrans; [|apply (size_list_to_set_le columns)].
    apply subseteq_size, intersection_subseteq_l.
  - apply subseteq_size, intersection_subseteq_r.
Qed.

(** ** Cell 18 *)

Lemma dict_zip_snoc (T : list (ConversionRecord (option Z))) (r : ConversionRecord (option Z)) :
  dict_zip (T ++ [r]) = <[Query r := ChEBI r]> (dict_zip T).
Proof. unfold dict_zip. by rewrite foldl_snoc. Qed.

(** X7: the dictionary of line 195 gives, for a name, the identifier of
    the last record of the table with that query, and nothing for a name
    that is no query of the table. *)
Theorem dict_zip_last_wins (T : list (ConversionRecord (option Z))) (n : string) :
  dict_zip T !! n = ChEBI <$> last (filter (fun r => Query r = n) T).
Proof.
  induction T as [|r T IH] using rev_ind; [done|].
  rewrite dict_zip_snoc, filter_app, last_app, lookup_insert.
  destruct (decide (Query r = n)) as [Hq|Hq].
  - by rewrite filter_cons_True by done.
  - rewrite filter_cons_False by done. simpl. by rewrite IH.
Qed.




(** ** Cell 33 *)

Section DropFacts.
Context {L C V : Type} `{EqDecision C}.
Implicit Types (df : DataFrame.t L C V) (labels : list C).

Lemma drop_columns_Ok df labels :
  Forall (fun c => c ∈ DataFrame.columns df) labels ->
  drop_columns df labels
  = Ok (DataFrame.mk
          (filter (fun c => c ∉ labels) (DataFrame.columns df))
          ((fun r => (r.1, select ((fun c => bool_decide (c ∉ labels))
                                     <$> DataFrame.columns df) r.2))
             <$> DataFrame.rows df)).
Proof. intros Hl. unfold drop_columns. by rewrite bool_decide_eq_true_2. Qed.

Lemma drop_columns_KeyError df labels :
  ~ Forall (fun c => c ∈ DataFrame.columns df) labels ->
  drop_columns df labels = Raised KeyError.
Proof. intros Hl. unfold drop_columns. by rewrite bool_decide_eq_false_2. Qed.

Lemma drop_columns_completes df labels :
  completes (drop_columns df labels)
  <-> Forall (fun c => c ∈ DataFrame.columns df) labels.
Proof.
  destruct (decide (Forall (fun c => c ∈ DataFrame.columns df) labels)) as [Hl|Hl].
  - by rewrite drop_columns_Ok.
  - by rewrite drop_columns_KeyError.
Qed.

(** Cells stay attached to their column labels. *)
Lemma zip_select (P : C -> Prop) `{forall c, Decision (P c)}
  `{forall x : C * V, Decision (P x.1)} (cols : list C) (cells : list V) :
  length cells = length cols ->
  zip (filter P cols) (select ((fun c => bool_decide (P c)) <$> cols) cells)
  = filter (fun x => P x.1) (zip cols cells).
Proof.
  revert cells; induction cols as [|c cols IH]; intros [|v cells] Hlen;
    simplify_eq/=; [done|].
  destruct (decide (P c)) as [HP|HP].
  - rewrite bool_decide_eq_true_2, !filter_cons_True by done. simpl. by rewrite IH.
  - rewrite bool_decide_eq_false_2, !filter_cons_False by done. by rewrite IH.
Qed.

Lemma length_select (P : C -> Prop) `{forall c, Decision (P c)}
  (cols : list C) (cells : list V) :
  length cells = length cols ->
  length (select ((fun c => bool_decide (P c)) <$> cols) cells)
  = length (filter P cols).
Proof.
  revert cells; induction cols as [|c cols IH]; intros [|v cells] Hlen;
    simplify_eq/=; [done|].
  destruct (decide (P c)) as [HP|HP].
  - rewrite bool_decide_eq_true_2, filter_cons_True by done. simpl. by rewrite IH.
  - rewrite bool_decide_eq_false_2, filter_cons_False by done. by rewrite IH.
Qed.

Lemma drop_columns_result df df' labels :
  drop_columns df labels = Ok df' ->
  columns_dropped labels df df'.
Proof.
  intros Hd.
  assert (Forall (fun c => c ∈ DataFrame.columns df) labels) as Hl.
  { apply drop_columns_completes. by rewrite Hd. }
  rewrite drop_columns_Ok in Hd by done. injection Hd as <-.
  unfold columns_dropped; simpl. split; [done|].
  apply Forall2_fmap_r, Forall_Forall2_diag, Forall_forall. intros r _; simpl.
  split; [done|]. intros Hlen. by apply (zip_select (fun c => c ∉ labels)).
Qed.

Lemma drop_columns_well_formed df df' labels :
  drop_columns df labels = Ok df' -> well_formed df -> well_formed df'.
Proof.
  intros Hd Hwf.
  assert (Forall (fun c => c ∈ DataFrame.columns df) labels) as Hl.
  { apply drop_columns_completes. by rewrite Hd. }
  rewrite drop_columns_Ok in Hd by done. injection Hd as <-.
  unfold well_formed in *; simpl. apply Forall_fmap.
  eapply Forall_impl; [exact Hwf|]. intros r Hr; simpl.
  by apply (length_select (fun c => c ∉ labels)).
Qed.

End DropFacts.

Lemma cell33_drop_inv {L V} (prot metab prot' metab' : DataFrame.t L string V) :
  cell33_drop prot metab = Ok (prot', metab') ->
  drop_columns prot metadata_columns = Ok prot'
  /\ drop_columns metab metadata_columns = Ok metab'.
Proof.
  unfold cell33_drop.
  destruct (drop_columns prot metadata_columns) as [p|e]; simpl; [|done].
  destruct (drop_columns metab metadata_columns) as [m|e]; simpl; [|done].
  by intros [= <- <-].
Qed.

Lemma dropped_labels_gone {L C V} `{EqDecision C} (labels : list C)
  (df df' : DataFrame.t L C V) :
  columns_dropped labels df df' ->
  Forall (fun c => c ∉ DataFrame.columns df') labels.
Proof.
  intros [-> _]. apply Forall_forall. intros c Hc [Hn _]%list_elem_of_filter. done.
Qed.

(** X9: when cell 33 completes, each frame has lost exactly its six
    metadata columns: the other columns are kept in order, every row keeps
    its index label and each remaining cell stays under its column label,
    and a well-formed frame stays well formed. *)
Theorem cell33_drops_only_metadata {L V} (prot metab prot' metab' : DataFrame.t L string V) :
  cell33_drop prot metab = Ok (prot', metab') ->
  columns_dropped metadata_columns prot prot'
  /\ columns_dropped metadata_columns metab metab'
  /\ Forall (fun c => c ∉ DataFrame.columns prot') metadata_columns
  /\ Forall (fun c => c ∉ DataFrame.columns metab') metadata_columns
  /\ (well_formed prot -> well_formed prot')
  /\ (well_formed metab -> well_formed metab').
Proof.
  intros [Hp Hm]%cell33_drop_inv.
  pose proof (drop_columns_result _ _ _ Hp) as Hdp.
  pose proof (drop_columns_result _ _ _ Hm) as Hdm.
  split; [done|]. split; [done|].
  split; [by eapply dropped_labels_gone|]. split; [by eapply dropped_labels_gone|].
  split; by eapply drop_columns_well_formed.
Qed.

Lemma cell33_drops_only_metadata_witness :
  cell33_drop csv_prot csv_metab = Ok (dropped_prot, dropped_metab)
  /\ columns_dropped metadata_columns csv_prot dropped_prot
  /\ columns_dropped metadata_columns csv_metab dropped_metab
  /\ Forall (fun c => c ∉ DataFrame.columns dropped_prot) metadata_columns
  /\ Forall (fun c => c ∉ DataFrame.columns dropped_metab) metadata_columns
  /\ (well_formed csv_prot -> well_formed dropped_prot)
  /\ (well_formed csv_metab -> well_formed dropped_metab).
Proof.
  assert (cell33_drop csv_prot csv_metab = Ok (dropped_prot, dropped_metab)) as Hrun
    by (vm_compute; reflexivity).
  split; [exact Hrun|].
  exact (cell33_drops_only_metadata csv_prot csv_metab _ _ Hrun).
Defined.

(** X10: cell 33 completes exactly when every one of the six metadata
    labels is a column of both frames; otherwise it raises [KeyError], and
    it raises nothing else. *)
Theorem cell33_KeyError_iff_missing {L V} (prot metab : DataFrame.t L string V) :
  (completes (cell33_drop prot metab)
   <-> Forall (fun c => c ∈ DataFrame.columns prot) metadata_columns
       /\ Forall (fun c => c ∈ DataFrame.columns metab) metadata_columns)
  /\ (forall e, cell33_drop prot metab = Raised e -> e = KeyError).
Proof.
  unfold cell33_drop.
  destruct (decide (Forall (fun c => c ∈ DataFrame.columns prot) metadata_columns))
    as [Hp|Hp];
  destruct (decide (Forall (fun c => c ∈ DataFrame.columns metab) metadata_columns))
    as [Hm|Hm];
  rewrite ?(drop_columns_Ok prot) by done; rewrite ?(drop_columns_KeyError prot) by done;
  simpl;
  rewrite ?(drop_columns_Ok metab) by done; rewrite ?(drop_columns_KeyError metab) by done;
  simpl; (split; [tauto|]); intros e; try done; by intros [= <-].
Qed.

(** X11: cell 33 cannot be run twice: on the frames it returned it raises
    [KeyError], because the labels it drops are gone. *)
Theorem cell33_rerun_raises {L V} (prot metab prot' metab' : DataFrame.t L string V) :
  cell33_drop prot metab = Ok (prot', metab') ->
  cell33_drop prot' metab' = Raised KeyError.
Proof.
  intros [Hp _]%cell33_drop_inv.
  apply drop_columns_result, dropped_labels_gone in Hp.
  unfold cell33_drop. rewrite (drop_columns_KeyError prot'); [done|].
  intros Hin. apply Forall_cons in Hp as [Hwho _]. apply Forall_cons in Hin as [? _]. done.
Qed.

Lemma cell33_rerun_raises_witness :
  cell33_drop csv_prot csv_metab = Ok (dropped_prot, dropped_metab)
  /\ cell33_drop dropped_prot dropped_metab = Raised KeyError.
Proof.
  assert (cell33_drop csv_prot csv_metab = Ok (dropped_prot, dropped_metab)) as Hrun
    by (vm_compute; reflexivity).
  split; [exact Hrun|].
  exact (cell33_rerun_raises csv_prot csv_metab _ _ Hrun).
Defined.

(** ** Cell 34 *)

Lemma elem_of_delete_other {A} (l : list A) (i : nat) (x y : A) :
  l !! i = Some y -> x ≠ y -> x ∈ delete i l <-> x ∈ l.
Proof.
  revert i; induction l as [|a l IH]; intros [|i] Hi Hne; simplify_eq/=.
  - rewrite elem_of_cons. split; [tauto|]. by intros [?|?].
  - rewrite !elem_of_cons, IH by done. done.
Qed.

Lemma NoDup_delete_not_in {A} (l : list A) (i : nat) (x : A) :
  NoDup l -> l !! i = Some x -> x ∉ delete i l.
Proof.
  revert i; induction l as [|a l IH]; intros [|i] Hnd Hi; simplify_eq/=.
  - by apply NoDup_cons in Hnd as [? _].
  - apply NoDup_cons in Hnd as [Ha Hnd]. rewrite not_elem_of_cons. split.
    + intros ->. apply Ha. by eapply list_elem_of_lookup_2.
    + by apply IH.
Qed.

Section SetIndexFacts.
Context {L C V : Type} `{EqDecision C}.
Implicit Types (df : DataFrame.t L C V) (c : C).

Lemma column_position_Some df c i :
  column_position df c = Some i -> DataFrame.columns df !! i = Some c.
Proof.
  unfold column_position. intros ([j x] & Hf & [= ->])%fmap_Some.
  by apply list_find_Some in Hf as (Hl & -> & _).
Qed.

Lemma column_position_None df c :
  column_position df c = None <-> c ∉ DataFrame.columns df.
Proof.
  unfold column_position. rewrite fmap_None, list_find_None, Forall_forall.
  split; [intros Hn Hin; by apply (Hn c)|intros Hn x Hx ->; done].
Qed.

Lemma set_index_completes df c :
  completes (set_index df c) <-> c ∈ DataFrame.columns df.
Proof.
  unfold set_index. destruct (column_position df c) as [i|] eqn:E; simpl.
  - apply column_position_Some in E. split; [|done].
    intros _. by eapply list_elem_of_lookup_2.
  - apply column_position_None in E. tauto.
Qed.

Lemma getitem_completes df c :
  completes (getitem df c) <-> c ∈ DataFrame.columns df.
Proof.
  unfold getitem. destruct (column_position df c) as [i|] eqn:E; simpl.
  - apply column_position_Some in E. split; [|done].
    intros _. by eapply list_elem_of_lookup_2.
  - apply column_position_None in E. tauto.
Qed.

Lemma set_index_Raised df c e : set_index df c = Raised e -> e = KeyError.
Proof. unfold set_index. destruct (column_position df c); [done|by intros [= <-]]. Qed.

Lemma getitem_Raised df c e : getitem df c = Raised e -> e = KeyError.
Proof. unfold getitem. destruct (column_position df c); [done|by intros [= <-]]. Qed.

Lemma set_index_result df c (df' : DataFrame.t V C V) :
  well_formed df -> set_index df c = Ok df' ->
  index_taken_from c df df' /\ well_formed df'.
Proof.
  intros Hwf. unfold set_index.
  destruct (column_position df c) as [i|] eqn:E; [|done].
  apply column_position_Some in E. intros [= <-].
  assert (i < length (DataFrame.columns df))%nat as Hi by (by eapply lookup_lt_Some).
  unfold index_taken_from, well_formed in *; simpl. split.
  - exists i. split; [done|]. split; [done|].
    induction Hwf as [|r rs Hr _ IH]; simpl; [constructor|].
    destruct (lookup_lt_is_Some_2 r.2 i) as [v Hv]; [lia|].
    rewrite Hv; simpl. constructor; [done|exact IH].
  - induction Hwf as [|r rs Hr _ IH]; simpl; [constructor|].
    destruct (lookup_lt_is_Some_2 r.2 i) as [v Hv]; [lia|].
    rewrite Hv; simpl. constructor; [|exact IH]. simpl.
    rewrite !length_delete by (apply lookup_lt_is_Some_2; lia). lia.
Qed.

Lemma getitem_index df c (s : list (L * V)) :
  well_formed df -> getitem df c = Ok s -> s.*1 = DataFrame.index df.
Proof.
  intros Hwf. unfold getitem.
  destruct (column_position df c) as [i|] eqn:E; [|done].
  apply column_position_Some in E. intros [= <-].
  assert (i < length (DataFrame.columns df))%nat as Hi by (by eapply lookup_lt_Some).
  unfold DataFrame.index, well_formed in *.
  induction Hwf as [|r rs Hr _ IH]; simpl; [done|].
  destruct (lookup_lt_is_Some_2 r.2 i) as [v Hv]; [lia|].
  rewrite Hv; simpl. f_equal. exact IH.
Qed.

End SetIndexFacts.

Lemma cell34_set_index_inv {L V} (prot metab : DataFrame.t L string V)
  (prot' metab' : DataFrame.t V string V) (counted : list (V * V)) :
  cell34_set_index prot metab = Ok (prot', metab', counted) ->
  set_index prot "sample_id" = Ok prot'
  /\ set_index metab "sample_id" = Ok metab'
  /\ getitem metab' "Condition_Group" = Ok counted.
Proof.
  unfold cell34_set_index.
  destruct (set_index prot "sample_id") as [p|e]; simpl; [|done].
  destruct (set_index metab "sample_id") as [m|e]; simpl; [|done].
  destruct (getitem m "Condition_Group") as [s|e] eqn:Eg; simpl; [|done].
  intros [= <- <- <-]. auto.
Qed.

Lemma cell34_completes_iff {L V} (prot metab : DataFrame.t L string V) :
  completes (cell34_set_index prot metab)
  <-> "sample_id" ∈ DataFrame.columns prot
      /\ "sample_id" ∈ DataFrame.columns metab
      /\ "Condition_Group" ∈ DataFrame.columns metab.
Proof.
  unfold cell34_set_index.
  pose proof (set_index_completes prot "sample_id") as Hp.
  pose proof (set_index_completes metab "sample_id") as Hm.
  destruct (set_index prot "sample_id") as [p|e1] eqn:Ep; simpl in *; [|tauto].
  destruct (set_index metab "sample_id") as [m|e2] eqn:Em; simpl in *; [|tauto].
  pose proof (getitem_completes m "Condition_Group") as Hg.
  assert ("Condition_Group" ∈ DataFrame.columns m
          <-> "Condition_Group" ∈ DataFrame.columns metab) as Hcg.
  { unfold set_index in Em.
    destruct (column_position metab "sample_id") as [i|] eqn:E; [|done].
    apply column_position_Some in E. injection Em as <-; simpl.
    by apply (elem_of_delete_other _ _ _ "sample_id"). }
  destruct (getitem m "Condition_Group") as [s|e3] eqn:Eg; simpl in *; tauto.
Qed.

(** X12: for frames with distinct column labels, cell 34 completes exactly
    when [sample_id] is a column of both frames and [Condition_Group] is a
    column of [metab]; otherwise it raises [KeyError], and it raises
    nothing else. *)
Theorem cell34_KeyError_iff_missing {L V} (prot metab : DataFrame.t L string V) :
  NoDup (DataFrame.columns prot) ->
  NoDup (DataFrame.columns metab) ->
  (completes (cell34_set_index prot metab)
   <-> "sample_id" ∈ DataFrame.columns prot
       /\ "sample_id" ∈ DataFrame.columns metab
       /\ "Condition_Group" ∈ DataFrame.columns metab)
  /\ (forall e, cell34_set_index prot metab = Raised e -> e = KeyError).
Proof.
  intros _ _. split; [apply cell34_completes_iff|].
  intros e. unfold cell34_set_index.
  destruct (set_index prot "sample_id") as [p|e1] eqn:Ep; simpl;
    [|intros [= <-]; by eapply set_index_Raised].
  destruct (set_index metab "sample_id") as [m|e2] eqn:Em; simpl;
    [|intros [= <-]; by eapply set_index_Raised].
  destruct (getitem m "Condition_Group") as [s|e3] eqn:Eg; simpl; [done|].
  intros [= <-]. by eapply getitem_Raised.
Qed.

Lemma cell34_KeyError_iff_missing_witness :
  NoDup (DataFrame.columns dropped_prot)
  /\ NoDup (DataFrame.columns dropped_metab)
  /\ (completes (cell34_set_index dropped_prot dropped_metab)
      <-> "sample_id" ∈ DataFrame.columns dropped_prot
          /\ "sample_id" ∈ DataFrame.columns dropped_metab
          /\ "Condition_Group" ∈ DataFrame.columns dropped_metab)
  /\ (forall e, cell34_set_index dropped_prot dropped_metab = Raised e -> e = KeyError).
Proof.
  assert (NoDup (DataFrame.columns dropped_prot)) as Hp
    by (apply (bool_decide_unpack _); vm_compute; exact I).
  assert (NoDup (DataFrame.columns dropped_metab)) as Hm
    by (apply (bool_decide_unpack _); vm_compute; exact I).
  split; [exact Hp|]. split; [exact Hm|].
  exact (cell34_KeyError_iff_missing dropped_prot dropped_metab Hp Hm).
Defined.

Lemma set_index_columns {L C V} `{EqDecision C} (df : DataFrame.t L C V) (c : C)
  (df' : DataFrame.t V C V) :
  set_index df c = Ok df' ->
  exists i, DataFrame.columns df !! i = Some c
            /\ DataFrame.columns df' = delete i (DataFrame.columns df).
Proof.
  unfold set_index. destruct (column_position df c) as [i|] eqn:E; [|done].
  apply column_position_Some in E. intros [= <-]. by exists i.
Qed.

(** X13: when cell 34 completes on well-formed frames with distinct
    column labels, each frame is indexed by its [sample_id] cells, row by
    row and in row order; the [sample_id] column has left the columns and
    the cells, nothing else has moved, the frames are still well formed,
    and the counted series has one entry per sample of [metab]. *)
Theorem cell34_index_is_sample_id {L V} (prot metab : DataFrame.t L string V)
  (prot' metab' : DataFrame.t V string V) (counted : list (V * V)) :
  NoDup (DataFrame.columns prot) ->
  NoDup (DataFrame.columns metab) ->
  well_formed prot ->
  well_formed metab ->
  cell34_set_index prot metab = Ok (prot', metab', counted) ->
  index_taken_from "sample_id" prot prot'
  /\ index_taken_from "sample_id" metab metab'
  /\ ("sample_id" ∉ DataFrame.columns prot')
  /\ ("sample_id" ∉ DataFrame.columns metab')
  /\ well_formed prot'
  /\ well_formed metab'
  /\ counted.*1 = DataFrame.index metab'.
Proof.
  intros Hnp Hnm Hwp Hwm (Hp & Hm & Hg)%cell34_set_index_inv.
  destruct (set_index_result _ _ _ Hwp Hp) as [Hip Hwp'].
  destruct (set_index_result _ _ _ Hwm Hm) as [Him Hwm'].
  split; [done|]. split; [done|].
  split; [destruct Hip as (i & Hi & -> & _); by apply NoDup_delete_not_in|].
  split; [destruct Him as (i & Hi & -> & _); by apply NoDup_delete_not_in|].
  split; [done|]. split; [done|]. by eapply getitem_index.
Qed.

Lemma cell34_index_is_sample_id_witness :
  NoDup (DataFrame.columns dropped_prot)
  /\ NoDup (DataFrame.columns dropped_metab)
  /\ well_formed dropped_prot
  /\ well_formed dropped_metab
  /\ cell34_set_index dropped_prot dropped_metab
     = Ok (indexed_prot, indexed_metab, [("B", "Control"); ("C", "COVID"); ("D", "COVID")])
  /\ index_taken_from "sample_id" dropped_prot indexed_prot
  /\ index_taken_from "sample_id" dropped_metab indexed_metab
  /\ ("sample_id" ∉ DataFrame.columns indexed_prot)
  /\ ("sample_id" ∉ DataFrame.columns indexed_metab)
  /\ well_formed indexed_prot
  /\ well_formed indexed_metab
  /\ [("B", "Control"); ("C", "COVID"); ("D", "COVID")].*1 = DataFrame.index indexed_metab.
Proof.
  assert (NoDup (DataFrame.columns dropped_prot)) as Hnp
    by (apply (bool_decide_unpack _); vm_compute; exact I).
  assert (NoDup (DataFrame.columns dropped_metab)) as Hnm
    by (apply (bool_decide_unpack _); vm_compute; exact I).
  assert (well_formed dropped_prot) as Hwp by (repeat constructor).
  assert (well_formed dropped_metab) as Hwm by (repeat constructor).
  assert (cell34_set_index dropped_prot dropped_metab
          = Ok (indexed_prot, indexed_metab,
                [("B", "Control"); ("C", "COVID"); ("D", "COVID")])) as Hrun
    by (vm_compute; reflexivity).
  split; [exact Hnp|]. split; [exact Hnm|].
  split; [exact Hwp|]. split; [exact Hwm|]. split; [exact Hrun|].
  exact (cell34_index_is_sample_id dropped_prot dropped_metab _ _ _
           Hnp Hnm Hwp Hwm Hrun).
Defined.

(** X14: cell 34 cannot be run twice on frames with distinct column
    labels: [sample_id] is no longer a column, so the second run raises
    [KeyError]. *)
Theorem cell34_rerun_raises {L V} (prot metab : DataFrame.t L string V)
  (prot' metab' : DataFrame.t V string V) (counted : list (V * V)) :
  NoDup (DataFrame.columns prot) ->
  cell34_set_index prot metab = Ok (prot', metab', counted) ->
  cell34_set_index prot' metab' = Raised KeyError.
Proof.
  intros Hnd (Hp & _ & _)%cell34_set_index_inv.
  apply set_index_columns in Hp as (i & Hi & Hc).
  assert ("sample_id" ∉ DataFrame.columns prot') as Hgone
    by (rewrite Hc; by apply NoDup_delete_not_in).
  apply column_position_None in Hgone.
  assert (set_index prot' "sample_id" = Raised KeyError) as Hraise
    by (unfold set_index; by rewrite Hgone).
  unfold cell34_set_index. by rewrite Hraise.
Qed.

Lemma cell34_rerun_raises_witness :
  NoDup (DataFrame.columns dropped_prot)
  /\ cell34_set_index dropped_prot dropped_metab
     = Ok (indexed_prot, indexed_metab, [("B", "Control"); ("C", "COVID"); ("D", "COVID")])
  /\ cell34_set_index indexed_prot indexed_metab = Raised KeyError.
Proof.
  assert (NoDup (DataFrame.columns dropped_prot)) as Hnd
    by (apply (bool_decide_unpack _); vm_compute; exact I).
  assert (cell34_set_index dropped_prot dropped_metab
          = Ok (indexed_prot, indexed_metab,
                [("B", "Control"); ("C", "COVID"); ("D", "COVID")])) as Hrun
    by (vm_compute; reflexivity).
  split; [exact Hnd|]. split; [exact Hrun|].
  exact (cell34_rerun_raises dropped_prot dropped_metab _ _ _ Hnd Hrun).
Defined.

(** X15: cell 33 drops nothing that cell 34 needs.  For frames with
    distinct column labels, after a completed cell 33, cell 34 completes
    exactly when the frames read from file had a [sample_id] column each
    and [metab] had a [Condition_Group] column. *)
Theorem cell33_then_cell34 {L V} (prot metab prot' metab' : DataFrame.t L string V) :
  NoDup (DataFrame.columns prot) ->
  NoDup (DataFrame.columns metab) ->
  cell33_drop prot metab = Ok (prot', metab') ->
  NoDup (DataFrame.columns prot')
  /\ NoDup (DataFrame.columns metab')
  /\ (completes (cell34_set_index prot' metab')
      <-> "sample_id" ∈ DataFrame.columns prot
          /\ "sample_id" ∈ DataFrame.columns metab
          /\ "Condition_Group" ∈ DataFrame.columns metab).
Proof.
  intros Hnp Hnm [Hp Hm]%cell33_drop_inv.
  apply drop_columns_result in Hp as [Hcp _].
  apply drop_columns_result in Hm as [Hcm _].
  split; [rewrite Hcp; by apply NoDup_filter|].
  split; [rewrite Hcm; by apply NoDup_filter|].
  rewrite cell34_completes_iff, Hcp, Hcm, !list_elem_of_filter.
  assert ("sample_id" ∉ metadata_columns) as Hs
    by (apply (bool_decide_unpack _); vm_compute; exact I).
  assert ("Condition_Group" ∉ metadata_columns) as Hc
    by (apply (bool_decide_unpack _); vm_compute; exact I).
  tauto.
Qed.

Lemma cell33_then_cell34_witness :
  NoDup (DataFrame.columns csv_prot)
  /\ NoDup (DataFrame.columns csv_metab)
  /\ cell33_drop csv_prot csv_metab = Ok (dropped_prot, dropped_metab)
  /\ NoDup (DataFrame.columns dropped_prot)
  /\ NoDup (DataFrame.columns dropped_metab)
  /\ (completes (cell34_set_index dropped_prot dropped_metab)
      <-> "sample_id" ∈ DataFrame.columns csv_prot
          /\ "sample_id" ∈ DataFrame.columns csv_metab
          /\ "Condition_Group" ∈ DataFrame.columns csv_metab).
Proof.
  assert (NoDup (DataFrame.columns csv_prot)) as Hnp
    by (apply (bool_decide_unpack _); vm_compute; exact I).
  assert (NoDup (DataFrame.columns csv_metab)) as Hnm
    by (apply (bool_decide_unpack _); vm_compute; exact I).
  assert (cell33_drop csv_prot csv_metab = Ok (dropped_prot, dropped_metab)) as Hrun
    by (vm_compute; reflexivity).
  split; [exact Hnp|]. split; [exact Hnm|]. split; [exact Hrun|].
  exact (cell33_then_cell34 csv_prot csv_metab _ _ Hnp Hnm Hrun).
Defined.

(** ** The arguments built on lines 455 and 456 *)

Lemma take_snoc_lookup {A} (l : list A) (n : nat) (x : A) :
  length l = S n -> l !! n = Some x -> take n l ++ [x] = l.
Proof.
  intros Hlen Hx. rewrite <- (take_S_r l n x Hx). apply take_ge. lia.
Qed.

Section LastColumn.
Context {L C V : Type} `{EqDecision C}.
Implicit Types (df : DataFrame.t L C V) (c : C).

Lemma column_position_last df c (cs : list C) :
  DataFrame.columns df = cs ++ [c] -> NoDup (DataFrame.columns df) ->
  column_position df c = Some (length cs).
Proof.
  intros Hc Hnd.
  destruct (column_position df c) as [i|] eqn:E.
  - apply column_position_Some in E. f_equal.
    apply (NoDup_lookup _ _ _ c Hnd E). rewrite Hc. by apply list_lookup_middle.
  - apply column_position_None in E. exfalso. apply E. rewrite Hc.
    apply elem_of_app. right. by left.
Qed.

Lemma iloc_but_last_columns df c (cs : list C) :
  DataFrame.columns df = cs ++ [c] ->
  DataFrame.columns (iloc_but_last df) = cs.
Proof.
  intros Hc. unfold iloc_but_last; simpl. rewrite Hc, length_app; simpl.
  replace (length cs + 1 - 1)%nat with (length cs) by lia. apply take_app_length.
Qed.

Lemma iloc_but_last_index df :
  DataFrame.index (iloc_but_last df) = DataFrame.index df.
Proof.
  unfold iloc_but_last, DataFrame.index; simpl.
  rewrite <- list_fmap_compose. by apply list_fmap_ext.
Qed.

(** A well-formed frame whose last column is [c] is its other columns with
    the series of [c] put back. *)
Lemma split_last_column df c (cs : list C) (s : list (L * V)) :
  DataFrame.columns df = cs ++ [c] -> NoDup (DataFrame.columns df) ->
  well_formed df -> getitem df c = Ok s ->
  DataFrame.rows df
  = zip_with (fun r x => (r.1, r.2 ++ [x.2])) (DataFrame.rows (iloc_but_last df)) s.
Proof.
  intros Hc Hnd Hwf. unfold getitem. rewrite (column_position_last df c cs Hc Hnd).
  intros [= <-]. unfold iloc_but_last, well_formed in *; simpl.
  rewrite Hc, length_app in *; simpl in *.
  replace (length cs + 1 - 1)%nat with (length cs) by lia.
  induction Hwf as [|[l cells] rs Hr _ IH]; simpl in *; [done|].
  destruct (lookup_lt_is_Some_2 cells (length cs)) as [v Hv]; [lia|].
  rewrite Hv; simpl. f_equal; [|exact IH].
  f_equal. symmetry. apply take_snoc_lookup; [lia|done].
Qed.

End LastColumn.

(** X16: when [Condition_Group] is the last column of both frames, whose
    column labels are distinct, cell 40 passes frames without the label
    column and with the index unchanged, the label series has one entry
    per sample of [prot], and the proteomics frame with the label series
    put back is [prot]: the slice by position removes the labels and
    nothing else. *)
Theorem cell40_arguments_split {L V} (prot metab : DataFrame.t L string V)
  (cp cm : list string) :
  DataFrame.columns prot = cp ++ ["Condition_Group"] ->
  DataFrame.columns metab = cm ++ ["Condition_Group"] ->
  NoDup (DataFrame.columns prot) ->
  NoDup (DataFrame.columns metab) ->
  well_formed prot ->
  exists Metabolomics Proteomics metadata,
    cell40_arguments prot metab = Ok (Metabolomics, Proteomics, metadata)
    /\ DataFrame.columns Metabolomics = cm
    /\ DataFrame.columns Proteomics = cp
    /\ ("Condition_Group" ∉ cm)
    /\ ("Condition_Group" ∉ cp)
    /\ DataFrame.index Metabolomics = DataFrame.index metab
    /\ DataFrame.index Proteomics = DataFrame.index prot
    /\ metadata.*1 = DataFrame.index prot
    /\ DataFrame.rows prot
       = zip_with (fun r x => (r.1, r.2 ++ [x.2])) (DataFrame.rows Proteomics) metadata.
Proof.
  intros Hcp Hcm Hnp Hnm Hwf.
  assert (exists s, getitem prot "Condition_Group" = Ok s) as [s Hs].
  { unfold getitem. rewrite (column_position_last prot _ cp Hcp Hnp). by eexists. }
  exists (iloc_but_last metab), (iloc_but_last prot), s.
  split; [unfold cell40_arguments; by rewrite Hs|].
  split; [by eapply iloc_but_last_columns|]. split; [by eapply iloc_but_last_columns|].
  split; [rewrite Hcm in Hnm; apply NoDup_app in Hnm as (_ & Hd & _);
          intros Hin; apply (Hd _ Hin); by left|].
  split; [rewrite Hcp in Hnp; apply NoDup_app in Hnp as (_ & Hd & _);
          intros Hin; apply (Hd _ Hin); by left|].
  split; [apply iloc_but_last_index|]. split; [apply iloc_but_last_index|].
  split; [by eapply getitem_index|]. by eapply split_last_column.
Qed.

Lemma cell40_arguments_split_witness :
  DataFrame.columns indexed_prot = ["P02768"] ++ ["Condition_Group"]
  /\ DataFrame.columns indexed_metab = ["17234"] ++ ["Condition_Group"]
  /\ NoDup (DataFrame.columns indexed_prot)
  /\ NoDup (DataFrame.columns indexed_metab)
  /\ well_formed indexed_prot
  /\ exists Metabolomics Proteomics metadata,
       cell40_arguments indexed_prot indexed_metab = Ok (Metabolomics, Proteomics, metadata)
       /\ DataFrame.columns Metabolomics = ["17234"]
       /\ DataFrame.columns Proteomics = ["P02768"]
       /\ ("Condition_Group" ∉ ["17234"])
       /\ ("Condition_Group" ∉ ["P02768"])
       /\ DataFrame.index Metabolomics = DataFrame.index indexed_metab
       /\ DataFrame.index Proteomics = DataFrame.index indexed_prot
       /\ metadata.*1 = DataFrame.index indexed_prot
       /\ DataFrame.rows indexed_prot
          = zip_with (fun r x => (r.1, r.2 ++ [x.2])) (DataFrame.rows Proteomics) metadata.
Proof.
  assert (NoDup (DataFrame.columns indexed_prot)) as Hnp
    by (apply (bool_decide_unpack _); vm_compute; exact I).
  assert (NoDup (DataFrame.columns indexed_metab)) as Hnm
    by (apply (bool_decide_unpack _); vm_compute; exact I).
  assert (well_formed indexed_prot) as Hwf by (repeat constructor).
  split; [reflexivity|]. split; [reflexivity|].
  split; [exact Hnp|]. split; [exact Hnm|]. split; [exact Hwf|].
  exact (cell40_arguments_split indexed_prot indexed_metab ["P02768"] ["17234"]
           eq_refl eq_refl Hnp Hnm Hwf).
Defined.

(** ** Cells 47 and 48 *)

Section TrainTest.
Context {L C V : Type} `{EqDecision L}.
Implicit Types (df metab : DataFrame.t L C V) (key : list L).

Lemma loc1_completes df (l : L) :
  completes (DataFrame.loc1 df l) <-> l ∈ DataFrame.index df.
Proof.
  destruct (decide (l ∈ DataFrame.index df)) as [Hin|Hout].
  - by rewrite loc1_Ok.
  - by rewrite loc1_KeyError.
Qed.

Lemma loc_completes df key :
  completes (DataFrame.loc df key)
  <-> Forall (fun l => l ∈ DataFrame.index df) key.
Proof.
  split.
  - unfold DataFrame.loc.
    destruct (traverse (DataFrame.loc1 df) key) as [sel|e] eqn:E; simpl; [|done].
    intros _. apply traverse_Ok_inv in E.
    induction E as [|l rs key sel Hl _ IH]; constructor; [|done].
    apply loc1_completes. by rewrite Hl.
  - intros Hk. by rewrite loc_Ok.
Qed.

Lemma loc_Raised df key (e : Exception) :
  DataFrame.loc df key = Raised e -> e = KeyError.
Proof.
  unfold DataFrame.loc.
  destruct (traverse (DataFrame.loc1 df) key) as [sel|e'] eqn:E; simpl; [done|].
  intros [= <-]. apply traverse_Raised_inv in E as (l & _ & Hl).
  unfold DataFrame.loc1 in Hl. destruct (DataFrame.rows_at df l); [|done].
  by injection Hl as <-.
Qed.

Lemma loc_columns df key (df' : DataFrame.t L C V) :
  DataFrame.loc df key = Ok df' -> DataFrame.columns df' = DataFrame.columns df.
Proof.
  unfold DataFrame.loc.
  destruct (traverse (DataFrame.loc1 df) key) as [sel|e']; simpl; [|done].
  by intros [= <-].
Qed.

Lemma cell47_subset_inv metab (X_train_prot X_test_prot A B : DataFrame.t L C V) :
  cell47_subset metab X_train_prot X_test_prot = Ok (A, B) ->
  DataFrame.loc metab (DataFrame.index X_train_prot) = Ok A
  /\ DataFrame.loc metab (DataFrame.index X_test_prot) = Ok B.
Proof.
  unfold cell47_subset.
  destruct (DataFrame.loc metab (DataFrame.index X_train_prot)) as [a|e]; simpl; [|done].
  destruct (DataFrame.loc metab (DataFrame.index X_test_prot)) as [b|e]; simpl; [|done].
  by intros [= <- <-].
Qed.

(** The two results of cell 35 carry the same labels in the same order. *)
Lemma align_same_index (prot metab prot' metab' : DataFrame.t L C V) :
  NoDup (DataFrame.index prot) -> NoDup (DataFrame.index metab) ->
  cell35_align prot metab = Ok (prot', metab') ->
  DataFrame.index metab' = DataFrame.index prot'
  /\ NoDup (DataFrame.index metab')
  /\ DataFrame.columns metab' = DataFrame.columns metab
  /\ (forall r, r ∈ DataFrame.rows metab' -> r ∈ DataFrame.rows metab).
Proof.
  intros Hp Hm. rewrite cell35_align_Ok. intros [= <- <-].
  rewrite !index_mk; simpl.
  rewrite (align_index_metab prot metab Hm), (align_rows_prot prot metab Hp).
  rewrite (fmap_fst_filter (fun l => l ∈ DataFrame.index metab)).
  rewrite Index_intersection_NoDup by done.
  split; [done|]. split; [by apply NoDup_filter|]. split; [done|].
  intros r Hr. by apply elem_of_selected_rows in Hr as [? _].
Qed.

End TrainTest.

(** X17: line 513 completes exactly when every sample label of the two
    proteomics frames is a label of [metab]; otherwise it raises
    [KeyError], and it raises nothing else. *)
Theorem cell47_KeyError_iff_missing {L C V} `{EqDecision L}
  (metab X_train_prot X_test_prot : DataFrame.t L C V) :
  (completes (cell47_subset metab X_train_prot X_test_prot)
   <-> Forall (fun l => l ∈ DataFrame.index metab) (DataFrame.index X_train_prot)
       /\ Forall (fun l => l ∈ DataFrame.index metab) (DataFrame.index X_test_prot))
  /\ (forall e, cell47_subset metab X_train_prot X_test_prot = Raised e -> e = KeyError).
Proof.
  unfold cell47_subset.
  pose proof (loc_completes metab (DataFrame.index X_train_prot)) as Htr.
  pose proof (loc_completes metab (DataFrame.index X_test_prot)) as Hte.
  destruct (DataFrame.loc metab (DataFrame.index X_train_prot)) as [a|e1] eqn:Ea;
    simpl in *.
  - destruct (DataFrame.loc metab (DataFrame.index X_test_prot)) as [b|e2] eqn:Eb;
      simpl in *.
    + split; [tauto|done].
    + split; [tauto|]. intros e [= <-]. by eapply loc_Raised.
  - split; [tauto|]. intros e [= <-]. by eapply loc_Raised.
Qed.

(** X18: after cell 35, line 513 cannot fail.  For frames with unique
    sample labels aligned by cell 35, and train and test frames whose
    labels are labels of the aligned [prot], the metabolomics train and
    test frames exist, list exactly the labels of their proteomics
    counterparts in the same order, and are made of rows of [metab]. *)
Theorem cell47_after_alignment {L C V} `{EqDecision L}
  (prot metab prot' metab' X_train_prot X_test_prot : DataFrame.t L C V) :
  NoDup (DataFrame.index prot) ->
  NoDup (DataFrame.index metab) ->
  cell35_align prot metab = Ok (prot', metab') ->
  Forall (fun l => l ∈ DataFrame.index prot') (DataFrame.index X_train_prot) ->
  Forall (fun l => l ∈ DataFrame.index prot') (DataFrame.index X_test_prot) ->
  exists X_train_met X_test_met,
    cell47_subset metab' X_train_prot X_test_prot = Ok (X_train_met, X_test_met)
    /\ DataFrame.index X_train_met = DataFrame.index X_train_prot
    /\ DataFrame.index X_test_met = DataFrame.index X_test_prot
    /\ DataFrame.columns X_train_met = DataFrame.columns metab
    /\ DataFrame.columns X_test_met = DataFrame.columns metab
    /\ (forall r, r ∈ DataFrame.rows X_train_met -> r ∈ DataFrame.rows metab)
    /\ (forall r, r ∈ DataFrame.rows X_test_met -> r ∈ DataFrame.rows metab).
Proof.
  intros Hp Hm Hal Htr Hte.
  destruct (align_same_index _ _ _ _ Hp Hm Hal) as (Hidx & Hnd & Hcols & Hrows).
  rewrite <- Hidx in Htr, Hte.
  eexists _, _. unfold cell47_subset. rewrite !loc_Ok by done. simpl.
  split; [done|]. rewrite !index_mk. unfold DataFrame.rows_at.
  split; [by apply select_index|]. split; [by apply select_index|].
  split; [done|]. split; [done|].
  split; intros r [Hr _]%elem_of_selected_rows; by apply Hrows.
Qed.

Lemma cell47_after_alignment_witness :
  NoDup (DataFrame.index s3_prot)
  /\ NoDup (DataFrame.index s3_metab)
  /\ cell35_align s3_prot s3_metab = Ok (s3_prot_aligned, s3_metab_aligned)
  /\ Forall (fun l => l ∈ DataFrame.index s3_prot_aligned)
            (DataFrame.index (DataFrame.mk (DataFrame.columns s3_prot_aligned)
                                           [("C", [31; 32])]))
  /\ Forall (fun l => l ∈ DataFrame.index s3_prot_aligned)
            (DataFrame.index (DataFrame.mk (DataFrame.columns s3_prot_aligned)
                                           [("B", [21; 22])]))
  /\ exists X_train_met X_test_met,
       cell47_subset s3_metab_aligned
         (DataFrame.mk (DataFrame.columns s3_prot_aligned) [("C", [31; 32])])
         (DataFrame.mk (DataFrame.columns s3_prot_aligned) [("B", [21; 22])])
       = Ok (X_train_met, X_test_met)
       /\ DataFrame.index X_train_met = ["C"]
       /\ DataFrame.index X_test_met = ["B"]
       /\ DataFrame.columns X_train_met = DataFrame.columns s3_metab
       /\ DataFrame.columns X_test_met = DataFrame.columns s3_metab
       /\ (forall r, r ∈ DataFrame.rows X_train_met -> r ∈ DataFrame.rows s3_metab)
       /\ (forall r, r ∈ DataFrame.rows X_test_met -> r ∈ DataFrame.rows s3_metab).
Proof.
  assert (NoDup (DataFrame.index s3_prot)) as Hp
    by (apply (bool_decide_unpack _); vm_compute; exact I).
  assert (NoDup (DataFrame.index s3_metab)) as Hm
    by (apply (bool_decide_unpack _); vm_compute; exact I).
  assert (cell35_align s3_prot s3_metab = Ok (s3_prot_aligned, s3_metab_aligned)) as Hrun
    by (vm_compute; reflexivity).
  assert (Forall (fun l => l ∈ DataFrame.index s3_prot_aligned)
            (DataFrame.index (DataFrame.mk (DataFrame.columns s3_prot_aligned)
                                           [("C", [31; 32])]))) as Htr
    by (apply (bool_decide_unpack _); vm_compute; exact I).
  assert (Forall (fun l => l ∈ DataFrame.index s3_prot_aligned)
            (DataFrame.index (DataFrame.mk (DataFrame.columns s3_prot_aligned)
                                           [("B", [21; 22])]))) as Hte
    by (apply (bool_decide_unpack _); vm_compute; exact I).
  split; [exact Hp|]. split; [exact Hm|]. split; [exact Hrun|].
  split; [exact Htr|]. split; [exact Hte|].
  exact (cell47_after_alignment s3_prot s3_metab _ _ _ _ Hp Hm Hrun Htr Hte).
Defined.

(** X19: lines 524 and 655 treat the two layers differently.  The
    metabolomics frame is passed with all the columns of [metab], so when
    the last column of both frames is the same label column [c], that
    column is among the metabolomics features and not among the
    proteomics features. *)
Theorem cell48_metabolomics_keeps_last_column {L C V} `{EqDecision L} `{EqDecision C}
  (metab X_train_prot X_test_prot X_train_met X_test_met : DataFrame.t L C V) (c : C) :
  cell47_subset metab X_train_prot X_test_prot = Ok (X_train_met, X_test_met) ->
  last (DataFrame.columns metab) = Some c ->
  last (DataFrame.columns X_train_prot) = Some c ->
  NoDup (DataFrame.columns X_train_prot) ->
  DataFrame.columns (cell48_omics_data X_train_met X_train_prot).1
  = DataFrame.columns metab
  /\ (c ∈ DataFrame.columns (cell48_omics_data X_train_met X_train_prot).1)
  /\ (c ∉ DataFrame.columns (cell48_omics_data X_train_met X_train_prot).2)
  /\ DataFrame.columns X_train_prot
     = DataFrame.columns (cell48_omics_data X_train_met X_train_prot).2 ++ [c].
Proof.
  intros [Ha _]%cell47_subset_inv Hlm Hlp Hnd.
  unfold cell48_omics_data; cbn [fst snd].
  apply loc_columns in Ha. rewrite Ha.
  apply last_Some in Hlm as [cm Hcm]. apply last_Some in Hlp as [cp Hcp].
  rewrite (iloc_but_last_columns X_train_prot c cp Hcp).
  split; [done|]. split; [rewrite Hcm; apply elem_of_app; right; by left|].
  split; [|done].
  rewrite Hcp in Hnd. apply NoDup_app in Hnd as (_ & Hd & _).
  intros Hin. apply (Hd _ Hin). by left.
Qed.

Lemma cell48_metabolomics_keeps_last_column_witness :
  cell47_subset aligned_metab train_prot test_prot = Ok (train_met, test_met)
  /\ last (DataFrame.columns aligned_metab) = Some "Condition_Group"
  /\ last (DataFrame.columns train_prot) = Some "Condition_Group"
  /\ NoDup (DataFrame.columns train_prot)
  /\ DataFrame.columns (cell48_omics_data train_met train_prot).1
     = DataFrame.columns aligned_metab
  /\ ("Condition_Group" ∈ DataFrame.columns (cell48_omics_data train_met train_prot).1)
  /\ ("Condition_Group" ∉ DataFrame.columns (cell48_omics_data train_met train_prot).2)
  /\ DataFrame.columns train_prot
     = DataFrame.columns (cell48_omics_data train_met train_prot).2 ++ ["Condition_Group"].
Proof.
  assert (cell47_subset aligned_metab train_prot test_prot = Ok (train_met, test_met)) as Hrun
    by (vm_compute; reflexivity).
  assert (NoDup (DataFrame.columns train_prot)) as Hnd
    by (apply (bool_decide_unpack _); vm_compute; exact I).
  split; [exact Hrun|]. split; [reflexivity|]. split; [reflexivity|].
  split; [exact Hnd|].
  exact (cell48_metabolomics_keeps_last_column aligned_metab train_prot test_prot
           train_met test_met "Condition_Group" Hrun eq_refl eq_refl Hnd).
Defined.

(** ** Cell 45 *)

(** X20: the integer codes of line 495 decode back to the group labels.
    The labels are the distinct values in increasing order, every element
    is coded by the position of its value among them, and every position
    is used; so the codes are 0 and 1 only when there are at most two
    groups, which the call does not check. *)
Theorem np_unique_inverse_round_trip (ar : list string) :
  Sorted String.le (np_unique_inverse ar).1
  /\ NoDup (np_unique_inverse ar).1
  /\ (forall v, v ∈ (np_unique_inverse ar).1 <-> v ∈ ar)
  /\ Forall2 (fun v i => (np_unique_inverse ar).1 !! i = Some v)
             ar (np_unique_inverse ar).2
  /\ (forall i, (i < length (np_unique_inverse ar).1)%nat -> i ∈ (np_unique_inverse ar).2).
Proof.
  unfold np_unique_inverse; cbn [fst snd].
  set (labels := merge_sort String.le (remove_dups ar)).
  assert (labels ≡ₚ remove_dups ar) as Hperm by apply merge_sort_Permutation.
  assert (NoDup labels) as Hnd by (rewrite Hperm; apply NoDup_remove_dups).
  assert (forall v, v ∈ labels <-> v ∈ ar) as Hel
    by (intros v; by rewrite Hperm, elem_of_remove_dups).
  assert (forall v, v ∈ ar ->
            labels !! from_option fst 0%nat (list_find (fun l => l = v) labels) = Some v)
    as Hcode.
  { intros v Hv%Hel.
    destruct (list_find_elem_of (fun l => l = v) labels v Hv eq_refl) as [[i x] Hf].
    rewrite Hf; simpl. by apply list_find_Some in Hf as (Hi & -> & _). }
  split; [apply Sorted_merge_sort; apply _|]. split; [done|]. split; [done|]. split.
  - apply Forall2_fmap_r, Forall_Forall2_diag, Forall_forall. exact Hcode.
  - intros i Hi. destruct (lookup_lt_is_Some_2 labels i Hi) as [v Hv].
    assert (v ∈ ar) as Hin by (apply Hel; by eapply list_elem_of_lookup_2).
    apply list_elem_of_fmap. exists v. split; [|done].
    by apply (NoDup_lookup labels _ _ v Hnd Hv), Hcode.
Qed.

(** ** What makes cell 8 raise *)



(** ** Cell 35 followed by cell 40 *)

Lemma align_well_formed {L C V} `{EqDecision L} `{EqDecision C}
  (prot metab prot' metab' : DataFrame.t L C V) :
  cell35_align prot metab = Ok (prot', metab') ->
  DataFrame.columns prot' = DataFrame.columns prot
  /\ (well_formed prot -> well_formed prot')
  /\ (well_formed metab -> well_formed metab').
Proof.
  rewrite cell35_align_Ok. intros [= <- <-]. split; [done|].
  unfold well_formed; simpl. split; intros Hwf; apply Forall_forall;
    intros r [Hr _]%elem_of_selected_rows; rewrite Forall_forall in Hwf; by apply Hwf.
Qed.

(** X22: the labels line up with the samples.  When cell 35 has aligned
    two frames with unique sample labels, and [prot] is well formed with
    distinct column labels among which [Condition_Group], the two omics
    frames and the label series that cell 40 passes on carry the same
    sample labels in the same order. *)
Theorem cell40_after_alignment {L V} `{EqDecision L}
  (prot metab prot' metab' : DataFrame.t L string V) :
  NoDup (DataFrame.index prot) ->
  NoDup (DataFrame.index metab) ->
  NoDup (DataFrame.columns prot) ->
  well_formed prot ->
  "Condition_Group" ∈ DataFrame.columns prot ->
  cell35_align prot metab = Ok (prot', metab') ->
  exists Metabolomics Proteomics metadata,
    cell40_arguments prot' metab' = Ok (Metabolomics, Proteomics, metadata)
    /\ DataFrame.index Metabolomics = DataFrame.index Proteomics
    /\ metadata.*1 = DataFrame.index Proteomics
    /\ DataFrame.index Proteomics
       = filter (fun l => l ∈ DataFrame.index metab) (DataFrame.index prot).
Proof.
  intros Hip Him Hnd Hwf Hcg Hal.
  destruct (align_same_index _ _ _ _ Hip Him Hal) as (Hidx & _ & _ & _).
  destruct (align_well_formed _ _ _ _ Hal) as (Hcols & Hwf' & _).
  specialize (Hwf' Hwf).
  assert (exists s, getitem prot' "Condition_Group" = Ok s) as [s Hs].
  { pose proof (getitem_completes prot' "Condition_Group") as Hg.
    rewrite Hcols in Hg. destruct (getitem prot' "Condition_Group") as [s|e]; [by eexists|].
    simpl in Hg. tauto. }
  exists (iloc_but_last metab'), (iloc_but_last prot'), s.
  split; [unfold cell40_arguments; by rewrite Hs|].
  rewrite !iloc_but_last_index. split; [done|].
  split; [by eapply getitem_index|].
  revert Hal. rewrite cell35_align_Ok. intros [= <- _]. rewrite index_mk.
  rewrite (align_rows_prot prot metab Hip).
  by rewrite (fmap_fst_filter (fun l => l ∈ DataFrame.index metab)).
Qed.

Lemma cell40_after_alignment_witness :
  NoDup (DataFrame.index indexed_prot)
  /\ NoDup (DataFrame.index indexed_metab)
  /\ NoDup (DataFrame.columns indexed_prot)
  /\ well_formed indexed_prot
  /\ ("Condition_Group" ∈ DataFrame.columns indexed_prot)
  /\ exists prot' metab',
       cell35_align indexed_prot indexed_metab = Ok (prot', metab')
       /\ exists Metabolomics Proteomics metadata,
            cell40_arguments prot' metab' = Ok (Metabolomics, Proteomics, metadata)
            /\ DataFrame.index Metabolomics = DataFrame.index Proteomics
            /\ metadata.*1 = DataFrame.index Proteomics
            /\ DataFrame.index Proteomics
               = filter (fun l => l ∈ DataFrame.index indexed_metab)
                        (DataFrame.index indexed_prot).
Proof.
  assert (NoDup (DataFrame.index indexed_prot)) as Hip
    by (apply (bool_decide_unpack _); vm_compute; exact I).
  assert (NoDup (DataFrame.index indexed_metab)) as Him
    by (apply (bool_decide_unpack _); vm_compute; exact I).
  assert (NoDup (DataFrame.columns indexed_prot)) as Hnd
    by (apply (bool_decide_unpack _); vm_compute; exact I).
  assert (well_formed indexed_prot) as Hwf by (repeat constructor).
  assert ("Condition_Group" ∈ DataFrame.columns indexed_prot) as Hcg
    by (apply (bool_decide_unpack _); vm_compute; exact I).
  split; [exact Hip|]. split; [exact Him|]. split; [exact Hnd|].
  split; [exact Hwf|]. split; [exact Hcg|].
  eexists _, _. split; [vm_compute; reflexivity|].
  refine (cell40_after_alignment indexed_prot indexed_metab _ _ Hip Him Hnd Hwf Hcg _).
  vm_compute; reflexivity.
Defined.
